(** * Escalation engine of the Mastodon content filter

    A shallow embedding of [src/filter_posts/mastodon_filter_ollama_v4.py]:
    the infraction ledger ([InfractionTracker]), the classification gateway
    ([AIAnalyzer.analyze]), the escalation policy ([ActionHandler]), the
    dedup store ([NotificationProcessor]) and the poll loop
    ([MastodonFilter.run]).

    Python objects mutated in place (the tracker's dict, the set of
    processed ids) and what the program leaves outside (the two files, the
    log, the calls made on the Mastodon client) are fields of one explicit
    [State]; the collaborators the program talks to (the Ollama client,
    the Mastodon client, the system clock, the sleep of the operating
    system) are oracles of an [Env].
    A Python exception is the [Raise] outcome of a computation, and the
    state reached when it is raised is kept, as the mutations made before a
    [raise] remain visible in Python. *)

From Stdlib Require Import Floats.
From stdpp Require Import gmap strings list.

Set Warnings "-register-all,-inexact-float".

Open Scope string_scope.
Open Scope list_scope.
Open Scope Z_scope.

(** ** Data model *)

(** A JSON number as [json.loads] builds it: an [int] of any size or a
    binary64 [float] (which includes [nan] and the infinities, which
    [json.loads] accepts). *)
Inductive pynum :=
| PyInt (z : Z)
| PyFloat (f : float).

(** A value built by [json.loads]. A [JObj] lists the items of the dict. *)
Inductive json :=
| JNull
| JBool (b : bool)
| JNum (n : pynum)
| JStr (s : string)
| JArr (l : list json)
| JObj (kv : list (string * json)).

(** [@dataclass class Config], with every field of the source. *)
Record Config := {
  dry_run : bool;
  allowlist : list string;
  ollama_model : string;
  ollama_host : string;
  poll_interval : Z;
  processed_ids_file : string;
  log_file : string;
  max_retries : Z;
  retry_delay : Z;
  mute_threshold : Z;
  block_threshold : Z;
  infractions_file : string;
  send_warnings : bool;
  warning_visibility : string;
  new_account_days : Z;
  new_account_instant_block : bool;
  new_account_no_warning : bool
}.

(** [Config()]: the field defaults, and the allowlist [__post_init__] puts
    in place of [None]. *)
Definition default_config : Config := {|
  dry_run := true;
  allowlist := ["friend@mastodon.social"; "another_friend@example.com";
                "news_bot_i_like@botsin.space"];
  ollama_model := "llama3:8b";
  ollama_host := "http://localhost:11434";
  poll_interval := 300;
  processed_ids_file := "processed_notification_ids.txt";
  log_file := "mastodon_filter.log";
  max_retries := 3;
  retry_delay := 5;
  mute_threshold := 1;
  block_threshold := 3;
  infractions_file := "user_infractions.json";
  send_warnings := true;
  warning_visibility := "direct";
  new_account_days := 30;
  new_account_instant_block := true;
  new_account_no_warning := true
|}.

(** The [author] dict of a status. [created_at] is the instant (in
    microseconds) [date_parser.parse] returns, [None] when the parse (or
    the subtraction) raises. *)
Record Author := {
  author_id : string;
  author_acct : string;
  created_at : option Z
}.

(** The dict [AIAnalyzer.analyze] returns, by the three keys
    [take_action] reads. *)
Record Decision := {
  classification : string;
  reason : json;
  confidence : pynum
}.

(** A mention notification: [str(notif['id'])], [status['id']],
    [status['account']] and [status['content']]. *)
Record Notification := {
  notif_id : string;
  status_id : string;
  account : Author;
  content : string
}.

(** ** Infraction ledger *)

(** One element of a record's ['history'] list. The timestamp is the
    instant [datetime.now()] read, whose [isoformat()] the source stores. *)
Record HistoryEntry := {
  h_timestamp : Z;
  h_classification : string;
  h_reason : json
}.

(** The value stored under a handle: [{'count': n, 'history': [...]}]. *)
Record InfractionRecord := {
  count : Z;
  history : list HistoryEntry
}.

(** What [file_path] holds: nothing, text [json.load] rejects, or the JSON
    text of a ledger. *)
Inductive LedgerFile :=
| FileAbsent
| FileCorrupt
| FileJson (m : gmap string InfractionRecord).

Module InfractionTracker.

(** The tracker object: its [infractions] dict and the file behind it. *)
Record t := {
  infractions : gmap string InfractionRecord;
  file : LedgerFile
}.

Definition _load (f : LedgerFile) : gmap string InfractionRecord :=
  match f with
  | FileAbsent => ∅
  | FileCorrupt => ∅
  | FileJson m => m
  end.

Definition __init__ (f : LedgerFile) : t :=
  {| infractions := _load f; file := f |}.

Definition _save (tr : t) : t :=
  {| infractions := infractions tr; file := FileJson (infractions tr) |}.

(** [add_infraction]; [now] is the reading of [datetime.now()]. *)
Definition add_infraction (now : Z) (user_acct classification : string)
    (reason : json) (tr : t) : t :=
  let m :=
    match infractions tr !! user_acct with
    | Some _ => infractions tr
    | None => <[user_acct := {| count := 0; history := [] |}]> (infractions tr)
    end in
  let m := alter (λ r, {| count := count r + 1; history := history r |})
                 user_acct m in
  let m := alter (λ r, {| count := count r;
                          history := history r ++
                            [{| h_timestamp := now;
                                h_classification := classification;
                                h_reason := reason |}] |})
                 user_acct m in
  _save {| infractions := m; file := file tr |}.

Definition get_count (user_acct : string) (tr : t) : Z :=
  match infractions tr !! user_acct with
  | Some r => count r
  | None => 0
  end.

Definition reset (user_acct : string) (tr : t) : t :=
  match infractions tr !! user_acct with
  | Some _ => _save {| infractions := delete user_acct (infractions tr);
                       file := file tr |}
  | None => tr
  end.

(** The operations a client of the tracker can perform. *)
Inductive Op :=
| OpAdd (now : Z) (user_acct classification : string) (reason : json)
| OpGet (user_acct : string)
| OpReset (user_acct : string).

Definition apply_op (o : Op) (tr : t) : t :=
  match o with
  | OpAdd now a c r => add_infraction now a c r tr
  | OpGet a => tr
  | OpReset a => reset a tr
  end.

Definition run_ops (ops : list Op) (tr : t) : t :=
  foldl (λ tr o, apply_op o tr) tr ops.

Definition is_reset_of (user_acct : string) (o : Op) : bool :=
  match o with
  | OpReset a => bool_decide (a = user_acct)
  | _ => false
  end.

(** [count == len(history)] in every record of the ledger. *)
Definition consistent (m : gmap string InfractionRecord) : Prop :=
  map_Forall (λ _ r, count r = Z.of_nat (length (history r))) m.

(** The history of a handle, empty when the handle has no record. *)
Definition get_history (user_acct : string) (tr : t) : list HistoryEntry :=
  match infractions tr !! user_acct with
  | Some r => history r
  | None => []
  end.

End InfractionTracker.

(** ** Effects: exceptions, the log, the collaborators *)

(** The exceptions the modelled code raises or receives; all of them are
    subclasses of [Exception]. *)
Inductive Exn :=
| AttributeError (name : string)
| TypeError
| ValueError
| OverflowError
| OSError
| JSONDecodeError
| OllamaError
| MastodonError.

Inductive Result (A : Type) :=
| Ok (a : A)
| Raise (e : Exn).
Arguments Ok {A} a.
Arguments Raise {A} e.

(** ['mute'], ['block'] and ['none'], the values of [_determine_action]. *)
Inductive Action := mute | block | none.

#[global] Instance Action_eq_dec : EqDecision Action.
Proof. solve_decision. Defined.

(** A call made on the Mastodon client to act on an account. *)
Inductive ClientCall :=
| account_mute (id : string)
| account_block (id : string).

(** One call of the logger, by the message it formats. *)
Inductive LogEvent :=
| LogClassified (c : string) (conf : pynum)
| LogReason (r : json)
| LogAttemptFailed (attempt : Z) (retries : Z) (e : Exn)
| LogExhausted
| LogAccountNew (acct : string) (age : Z)
| LogAgeError
| LogNoAction (acct : string)
| LogLowConfidence (conf : pynum) (acct : string)
| LogAllowlisted (acct : string)
| LogNewHostile (acct : string)
| LogBlockedNew (acct : string)
| LogFailedBlockNew (acct : string) (e : Exn)
| LogDryRunInstantBlock (acct : string)
| LogTracking (n : Z) (acct : string)
| LogActioning (a : Action) (acct : string) (n : Z)
| LogDryRunWould (a : Action) (acct : string)
| LogSuccess (a : Action) (acct : string)
| LogFailed (a : Action) (acct : string) (e : Exn)
| LogSeparator
| LogProcessing (acct : string) (id : string)
| LogContent (text : string)
| LogBanner (dry : bool)
| LogConnected
| LogConnectFailed
| LogChecking
| LogNoNew
| LogFound (n : nat)
| LogShutdown
| LogMainLoopError (e : Exn)
| LogSleeping (seconds : Z).

(** What one attempt of [analyze] gets from [client.chat] followed by
    [json.loads]: the call raises, the text is not JSON, or a value. *)
Inductive ChatOutcome :=
| ChatRaises
| ChatMalformed
| ChatParsed (j : json).

(** The collaborators. [chat text k] answers the [k]-th call of the Ollama
    client; [client_raises c past] tells whether the Mastodon client raises
    on call [c] after the calls [past]; [clock k] is the [k]-th reading of
    [datetime.now()]; [extract_text] is the text extraction of
    [process_notification] ([html.unescape] of the content with the [<p>]
    and [<br>] tags replaced, stripped); [sleep_refused seconds] tells
    whether the operating system refuses a sleep of that length, which
    [time.sleep] reports as an [OSError]. *)
Record Env := {
  chat : string → nat → ChatOutcome;
  client_raises : ClientCall → list ClientCall → bool;
  clock : nat → Z;
  extract_text : string → string;
  sleep_refused : Z → bool
}.

(** The mutable state of a running [MastodonFilter]. *)
Record State := {
  tracker : InfractionTracker.t;
  processed_ids : gset string;
  processed_file : list string;
  log : list LogEvent;
  client_calls : list ClientCall;
  chat_calls : nat;
  clock_reads : nat;
  slept : Z
}.

Definition set_tracker (f : InfractionTracker.t → InfractionTracker.t) (s : State) : State :=
  {| tracker := f (tracker s); processed_ids := processed_ids s;
     processed_file := processed_file s; log := log s;
     client_calls := client_calls s; chat_calls := chat_calls s;
     clock_reads := clock_reads s; slept := slept s |}.

Definition set_processed (ids : gset string) (lines : list string) (s : State) : State :=
  {| tracker := tracker s; processed_ids := ids;
     processed_file := lines; log := log s;
     client_calls := client_calls s; chat_calls := chat_calls s;
     clock_reads := clock_reads s; slept := slept s |}.

Definition set_log (l : list LogEvent) (s : State) : State :=
  {| tracker := tracker s; processed_ids := processed_ids s;
     processed_file := processed_file s; log := l;
     client_calls := client_calls s; chat_calls := chat_calls s;
     clock_reads := clock_reads s; slept := slept s |}.

Definition set_client_calls (l : list ClientCall) (s : State) : State :=
  {| tracker := tracker s; processed_ids := processed_ids s;
     processed_file := processed_file s; log := log s;
     client_calls := l; chat_calls := chat_calls s;
     clock_reads := clock_reads s; slept := slept s |}.

Definition set_chat_calls (n : nat) (s : State) : State :=
  {| tracker := tracker s; processed_ids := processed_ids s;
     processed_file := processed_file s; log := log s;
     client_calls := client_calls s; chat_calls := n;
     clock_reads := clock_reads s; slept := slept s |}.

Definition set_clock_reads (n : nat) (s : State) : State :=
  {| tracker := tracker s; processed_ids := processed_ids s;
     processed_file := processed_file s; log := log s;
     client_calls := client_calls s; chat_calls := chat_calls s;
     clock_reads := n; slept := slept s |}.

Definition set_slept (z : Z) (s : State) : State :=
  {| tracker := tracker s; processed_ids := processed_ids s;
     processed_file := processed_file s; log := log s;
     client_calls := client_calls s; chat_calls := chat_calls s;
     clock_reads := clock_reads s; slept := z |}.

(** Computations that read and change the state and may raise. *)
Definition M (A : Type) : Type := State → Result A * State.

Definition ret {A} (a : A) : M A := λ s, (Ok a, s).

Definition raise {A} (e : Exn) : M A := λ s, (Raise e, s).

Definition bind {A B} (m : M A) (k : A → M B) : M B :=
  λ s, match m s with
       | (Ok a, s') => k a s'
       | (Raise e, s') => (Raise e, s')
       end.

(** [try: m  except Exception as e: h e]. *)
Definition try_except {A} (m : M A) (h : Exn → M A) : M A :=
  λ s, match m s with
       | (Ok a, s') => (Ok a, s')
       | (Raise e, s') => h e s'
       end.

Notation "'let!' x ':=' m 'in' k" := (bind m (λ x, k))
  (at level 10, x name, m at level 100, k at level 200, only parsing).
Notation "m ;;; k" := (bind m (λ _, k))
  (at level 100, right associativity, only parsing).

(** [self.logger.info/warning/error(...)]. *)
Definition logger (ev : LogEvent) : M unit :=
  λ s, (Ok tt, set_log (log s ++ [ev]) s).

(** [datetime.now()]. *)
Definition datetime_now (env : Env) : M Z :=
  λ s, (Ok (clock env (clock_reads s)), set_clock_reads (S (clock_reads s)) s).

(** The longest sleep, in seconds, whose count of nanoseconds fits the
    signed 64 bits in which [time.sleep] keeps a length of time. *)
Definition sleep_limit : Z := 9223372036.

(** What [time.sleep(seconds)] does with an [int]: a length beyond
    [sleep_limit], on either side, raises [OverflowError] when it is
    converted; a negative length raises [ValueError]; a length the
    operating system refuses raises [OSError]. [None] when the call
    sleeps and returns. *)
Definition sleep_outcome (env : Env) (seconds : Z) : option Exn :=
  if bool_decide (sleep_limit < Z.abs seconds) then Some OverflowError
  else if bool_decide (seconds < 0) then Some ValueError
  else if sleep_refused env seconds then Some OSError
  else None.

(** [time.sleep(seconds)]. *)
Definition time_sleep (env : Env) (seconds : Z) : M unit :=
  λ s, match sleep_outcome env seconds with
       | Some e => (Raise e, s)
       | None => (Ok tt, set_slept (slept s + seconds) s)
       end.

(** A call on the Mastodon client: it is recorded, and raises when the
    collaborator refuses it. *)
Definition client_call (env : Env) (c : ClientCall) : M unit :=
  λ s, let s' := set_client_calls (client_calls s ++ [c]) s in
       if client_raises env c (client_calls s) then (Raise MastodonError, s')
       else (Ok tt, s').

(** ** Classification gateway: [AIAnalyzer] *)

(** [d[key]] on the items of a dict. *)
Fixpoint dict_get (key : string) (kv : list (string * json)) : option json :=
  match kv with
  | [] => None
  | (k, v) :: kv' => if bool_decide (k = key) then Some v else dict_get key kv'
  end.

Definition required_keys : list string := ["classification"; "reason"; "confidence"].

Definition valid_classifications : list string :=
  ["NEUTRAL"; "MILDLY_NEGATIVE"; "SEVERELY_NEGATIVE"].

(** [if x not in valid_classifications: raise ValueError(...)] for a JSON
    value [x]: a list or a dict is unhashable and the set lookup raises
    [TypeError]; only one of the three strings passes. *)
Definition check_classification (x : json) : Result string :=
  match x with
  | JStr s =>
      if bool_decide (s ∈ valid_classifications) then Ok s else Raise ValueError
  | JArr _ | JObj _ => Raise TypeError
  | JNull | JBool _ | JNum _ => Raise ValueError
  end.

(** The largest magnitude of an [int] that converts to a [float]: from
    [2**1024 - 2**970] on the conversion raises [OverflowError]. *)
Definition float_of_int_limit : Z := 2 ^ 1024 - 2 ^ 970.

(** [f"{x:.2f}"], by the number it formats: defined for a [float], for an
    [int] that converts to a [float], and for a [bool] (an [int]). *)
Definition format_2f (x : json) : Result pynum :=
  match x with
  | JNum (PyFloat f) => Ok (PyFloat f)
  | JNum (PyInt z) =>
      if bool_decide (Z.abs z < float_of_int_limit) then Ok (PyInt z)
      else Raise OverflowError
  | JBool b => Ok (PyInt (if b then 1 else 0))
  | JNull => Raise TypeError
  | JStr _ => Raise ValueError
  | JArr _ | JObj _ => Raise TypeError
  end.

(** The body of the [try] of [analyze], after the call of the client: the
    checks made on the parsed response, in the order of the source. *)
Definition validate (j : json) : Result Decision :=
  match j with
  | JObj kv =>
      match dict_get "classification" kv, dict_get "reason" kv,
            dict_get "confidence" kv with
      | Some c, Some r, Some conf =>
          match check_classification c with
          | Raise e => Raise e
          | Ok cs =>
              match format_2f conf with
              | Raise e => Raise e
              | Ok n => Ok {| classification := cs; reason := r; confidence := n |}
              end
          end
      | _, _, _ => Raise ValueError
      end
  | _ => Raise (AttributeError "keys")
  end.

(** One attempt: [client.chat], [json.loads] and the validation. *)
Definition attempt_result (o : ChatOutcome) : Result Decision :=
  match o with
  | ChatRaises => Raise OllamaError
  | ChatMalformed => Raise JSONDecodeError
  | ChatParsed j => validate j
  end.

(** The value [analyze] returns when every attempt failed. *)
Definition failsafe : Decision := {|
  classification := "NEUTRAL";
  reason := JStr "AI analysis failed - defaulting to safe classification";
  confidence := PyFloat 0.0
|}.

Module AIAnalyzer.

(** The call of the client and the body of the [try], as a computation:
    the call is counted, and the two [logger.info] lines run when the
    response is valid. *)
Definition attempt_body (env : Env) (text : string) : M Decision :=
  λ s, let o := chat env text (chat_calls s) in
       let s' := set_chat_calls (S (chat_calls s)) s in
       match attempt_result o with
       | Raise e => (Raise e, s')
       | Ok d =>
           (logger (LogClassified (classification d) (confidence d)) ;;;
            logger (LogReason (reason d)) ;;;
            ret d) s'
       end.

(** [for attempt in range(max_retries)], from [attempt] on, with
    [remaining] iterations left; [None] when the loop ends without
    [return]. *)
Fixpoint attempts (cfg : Config) (env : Env) (text : string)
    (attempt : Z) (remaining : nat) : M (option Decision) :=
  match remaining with
  | O => ret None
  | S remaining' =>
      let! r := try_except
                  (let! d := attempt_body env text in ret (Some d))
                  (λ e,
                     logger (LogAttemptFailed (attempt + 1) (max_retries cfg) e) ;;;
                     (if bool_decide (attempt < max_retries cfg - 1)
                      then time_sleep env (retry_delay cfg)
                      else logger LogExhausted) ;;;
                     ret None) in
      match r with
      | Some d => ret (Some d)
      | None => attempts cfg env text (attempt + 1) remaining'
      end
  end.

Definition analyze (cfg : Config) (env : Env) (text : string) : M Decision :=
  let! r := attempts cfg env text 0 (Z.to_nat (max_retries cfg)) in
  match r with
  | Some d => ret d
  | None => ret failsafe
  end.

End AIAnalyzer.

(** ** Escalation policy: [ActionHandler] *)

Definition microseconds_per_day : Z := 86400 * 1000000.

(** [confidence < 0.6]. A [float] compares as a binary64 value (so [nan]
    is not below the floor); an [int] compares by its exact value, and the
    integers below [0.6] are those up to [0]. *)
Definition below_confidence_floor (c : pynum) : bool :=
  match c with
  | PyFloat f => PrimFloat.ltb f 0.6%float
  | PyInt z => bool_decide (z ≤ 0)
  end.

(** [classification in ['MILDLY_NEGATIVE', 'SEVERELY_NEGATIVE']]. *)
Definition is_negative (c : string) : bool :=
  bool_decide (c ∈ ["MILDLY_NEGATIVE"; "SEVERELY_NEGATIVE"]).

(** Truth value of the [status_id] argument, [None] by default. *)
Definition truthy (sid : option string) : bool :=
  match sid with
  | Some s => negb (bool_decide (s = ""))
  | None => false
  end.

Module ActionHandler.

Definition _is_new_account (cfg : Config) (env : Env) (author : Author) : M bool :=
  try_except
    (match created_at author with
     | None => raise ValueError
     | Some created =>
         let! now := datetime_now env in
         let account_age := (now - created) `div` microseconds_per_day in
         let is_new := bool_decide (account_age ≤ new_account_days cfg) in
         (if is_new then logger (LogAccountNew (author_acct author) account_age)
          else ret tt) ;;;
         ret is_new
     end)
    (λ e, logger LogAgeError ;;; ret false).

Definition _determine_action (cfg : Config) (classification : string)
    (infraction_count : Z) : Action :=
  if bool_decide (classification = "SEVERELY_NEGATIVE") then
    if bool_decide (block_threshold cfg ≤ infraction_count) then block
    else mute
  else if bool_decide (classification = "MILDLY_NEGATIVE") then
    if bool_decide (block_threshold cfg ≤ infraction_count) then block
    else if bool_decide (mute_threshold cfg ≤ infraction_count) then mute
    else none
  else none.

Definition _execute_action (cfg : Config) (env : Env) (author_id author_acct : string)
    (action : Action) (infraction_count : Z) : M unit :=
  logger (LogActioning action author_acct infraction_count) ;;;
  if dry_run cfg then
    logger (LogDryRunWould action author_acct)
  else
    try_except
      ((match action with
        | mute => client_call env (account_mute author_id)
        | block => client_call env (account_block author_id)
        | none => ret tt
        end) ;;;
       logger (LogSuccess action author_acct))
      (λ e, logger (LogFailed action author_acct e)).

(** [self._send_warning(...)]: the class defines [__init__],
    [_is_new_account], [take_action], [_determine_action] and
    [_execute_action] and nothing else, and [__init__] sets [config],
    [logger] and [tracker]; the lookup of the attribute raises. *)
Definition _send_warning (author_acct status_id : string)
    (infraction_count : Z) (classification : string) : M unit :=
  raise (AttributeError "_send_warning").

Definition take_action (cfg : Config) (env : Env) (author : Author)
    (decision : Decision) (status_id : option string) : M unit :=
  let author_id := author_id author in
  let author_acct := author_acct author in
  let classification := classification decision in
  let confidence := confidence decision in
  if bool_decide (classification = "NEUTRAL") then
    logger (LogNoAction author_acct)
  else if below_confidence_floor confidence then
    logger (LogLowConfidence confidence author_acct)
  else if bool_decide (author_acct ∈ allowlist cfg) then
    logger (LogAllowlisted author_acct)
  else
    let! is_new := _is_new_account cfg env author in
    if is_new && new_account_instant_block cfg && is_negative classification then
      logger (LogNewHostile author_acct) ;;;
      if negb (dry_run cfg) then
        try_except
          (client_call env (account_block author_id) ;;;
           logger (LogBlockedNew author_acct))
          (λ e, logger (LogFailedBlockNew author_acct e))
      else
        logger (LogDryRunInstantBlock author_acct)
    else
      (if is_negative classification then
         let! now := datetime_now env in
         λ s, (Ok tt, set_tracker (InfractionTracker.add_infraction
                                     now author_acct classification
                                     (reason decision)) s)
       else ret tt) ;;;
      let! infraction_count :=
        (λ s, (Ok (InfractionTracker.get_count author_acct (tracker s)), s)) in
      (if send_warnings cfg && truthy status_id then
         if negb (is_new && new_account_no_warning cfg) then
           _send_warning author_acct (default "" status_id) infraction_count
                         classification
         else ret tt
       else ret tt) ;;;
      let action := _determine_action cfg classification infraction_count in
      if bool_decide (action = none) then
        logger (LogTracking infraction_count author_acct)
      else
        _execute_action cfg env author_id author_acct action infraction_count.

End ActionHandler.

(** ** Dedup store: [NotificationProcessor] *)

(** The set [processed_ids] of a state is the one [__init__] loaded from
    the file of ids; [processed_file] lists the lines appended since. *)

Module NotificationProcessor.

Definition mark_processed (notification_id : string) : M unit :=
  λ s, (Ok tt, set_processed ({[notification_id]} ∪ processed_ids s)
                             (processed_file s ++ [notification_id]) s).

Definition is_processed (notification_id : string) (s : State) : bool :=
  bool_decide (notification_id ∈ processed_ids s).

End NotificationProcessor.

(** ** Poll loop: [MastodonFilter] *)

(** What [self.mastodon.notifications(mentions_only=True)] does in one
    cycle: it returns the mentions, raises, or is interrupted by the user
    ([KeyboardInterrupt]). *)
Inductive FetchOutcome :=
| FetchOk (l : list Notification)
| FetchRaises
| FetchInterrupted.

Module MastodonFilter.

Definition process_notification (cfg : Config) (env : Env) (notif : Notification) : M unit :=
  let author := account notif in
  let content := extract_text env (content notif) in
  logger LogSeparator ;;;
  logger (LogProcessing (author_acct author) (notif_id notif)) ;;;
  logger (LogContent content) ;;;
  let! ai_decision := AIAnalyzer.analyze cfg env content in
  ActionHandler.take_action cfg env author ai_decision (Some (status_id notif)) ;;;
  NotificationProcessor.mark_processed (notif_id notif).

(** [for notif in items: self.process_notification(notif)]. *)
Fixpoint process_each (cfg : Config) (env : Env) (items : list Notification) : M unit :=
  match items with
  | [] => ret tt
  | notif :: items' =>
      process_notification cfg env notif ;;; process_each cfg env items'
  end.

(** The body of the [try] of the loop, for a fetch that returns or
    raises an [Exception]. *)
Definition cycle_body (cfg : Config) (env : Env) (fetch : FetchOutcome) : M unit :=
  logger LogChecking ;;;
  let! notifications :=
    match fetch with
    | FetchOk l => ret l
    | _ => raise MastodonError
    end in
  let! new_notifications :=
    (λ s, (Ok (filter (λ n, ¬ NotificationProcessor.is_processed (notif_id n) s)
                      notifications), s)) in
  match new_notifications with
  | [] => logger LogNoNew
  | _ =>
      logger (LogFound (length new_notifications)) ;;;
      process_each cfg env (reverse new_notifications)
  end.

(** One iteration of [while True]; [false] when the loop is left: at the
    [break], or by the exception of [time.sleep], which is raised outside
    the [try] and ends [run]. *)
Definition iteration (cfg : Config) (env : Env) (fetch : FetchOutcome)
    (s : State) : bool * State :=
  match fetch with
  | FetchInterrupted =>
      (false, snd ((logger LogChecking ;;; logger LogShutdown) s))
  | _ =>
      let s1 := snd (try_except (cycle_body cfg env fetch)
                                (λ e, logger (LogMainLoopError e)) s) in
      match (logger (LogSleeping (poll_interval cfg)) ;;;
             time_sleep env (poll_interval cfg)) s1 with
      | (Ok _, s2) => (true, s2)
      | (Raise _, s2) => (false, s2)
      end
  end.

(** The loop over the outcomes of its successive fetches. *)
Fixpoint loop (cfg : Config) (env : Env) (fetches : list FetchOutcome)
    (s : State) : State :=
  match fetches with
  | [] => s
  | fetch :: fetches' =>
      match iteration cfg env fetch s with
      | (true, s') => loop cfg env fetches' s'
      | (false, s') => s'
      end
  end.

(** [connect]; [reachable] tells whether the construction of the client
    and its [me()] call succeed. *)
Definition connect (reachable : bool) : M bool :=
  if reachable then logger LogConnected ;;; ret true
  else logger LogConnectFailed ;;; ret false.

(** [run], over the outcomes of the successive fetches of its loop. The
    lines of the banner are one [LogBanner]. *)
Definition run (cfg : Config) (env : Env) (reachable : bool)
    (fetches : list FetchOutcome) (s : State) : State :=
  match (logger (LogBanner (dry_run cfg)) ;;; connect reachable) s with
  | (Ok true, s0) => loop cfg env fetches s0
  | (_, s0) => s0
  end.

End MastodonFilter.

(** ** Configurations, states and collaborators used in examples *)

(** A configuration with its [dry_run] field replaced. *)
Definition set_dry_run (b : bool) (cfg : Config) : Config := {|
  dry_run := b;
  allowlist := allowlist cfg;
  ollama_model := ollama_model cfg;
  ollama_host := ollama_host cfg;
  poll_interval := poll_interval cfg;
  processed_ids_file := processed_ids_file cfg;
  log_file := log_file cfg;
  max_retries := max_retries cfg;
  retry_delay := retry_delay cfg;
  mute_threshold := mute_threshold cfg;
  block_threshold := block_threshold cfg;
  infractions_file := infractions_file cfg;
  send_warnings := send_warnings cfg;
  warning_visibility := warning_visibility cfg;
  new_account_days := new_account_days cfg;
  new_account_instant_block := new_account_instant_block cfg;
  new_account_no_warning := new_account_no_warning cfg
|}.

(** The shipped configuration switched to live mode. *)
Definition live_config : Config := set_dry_run false default_config.

(** A filter that starts with no ledger file and no processed id. *)
Definition initial_state : State := {|
  tracker := InfractionTracker.__init__ FileAbsent;
  processed_ids := ∅;
  processed_file := [];
  log := [];
  client_calls := [];
  chat_calls := 0;
  clock_reads := 0;
  slept := 0
|}.

Definition day (n : Z) : Z := n * microseconds_per_day.

(** Collaborators: the classifier always answers [answer], the Mastodon
    client raises on every call when [refuses], the clock stands at day
    1000, the text is taken as it is, and the operating system refuses no
    sleep. *)
Definition env_of (answer : ChatOutcome) (refuses : bool) : Env := {|
  chat := λ _ _, answer;
  client_raises := λ _ _, refuses;
  clock := λ _, day 1000;
  extract_text := λ text, text;
  sleep_refused := λ _, false
|}.

(** The JSON object of a well-formed answer. *)
Definition answer_of (c : string) (conf : float) : ChatOutcome :=
  ChatParsed (JObj [("classification", JStr c); ("reason", JStr "tone");
                    ("confidence", JNum (PyFloat conf))]).

(** An account created 900 days before the clock's day. *)
Definition established_author : Author := {|
  author_id := "42";
  author_acct := "troll@example.org";
  created_at := Some (day 100)
|}.

(** An account created 5 days before the clock's day. *)
Definition new_author : Author := {|
  author_id := "77";
  author_acct := "alt@example.org";
  created_at := Some (day 995)
|}.

(** An allowlisted handle, on an account created 5 days before the clock's
    day. *)
Definition allowlisted_author : Author := {|
  author_id := "7";
  author_acct := "friend@mastodon.social";
  created_at := Some (day 995)
|}.

Definition decision_of (c : string) (conf : float) : Decision := {|
  classification := c;
  reason := JStr "tone";
  confidence := PyFloat conf
|}.

Definition mention (id : string) (a : Author) : Notification := {|
  notif_id := id;
  status_id := "s" +:+ id;
  account := a;
  content := "<p>text</p>"
|}.

(** The calls an action stands for on the client. *)
Definition calls_of (a : Action) (id : string) : list ClientCall :=
  match a with
  | mute => [account_mute id]
  | block => [account_block id]
  | none => []
  end.

(** ** Observations on states, used to state the properties *)

(** [confidence >= 0.6], with the comparisons of [below_confidence_floor]. *)
Definition at_least_confidence_floor (c : pynum) : bool :=
  match c with
  | PyFloat f => PrimFloat.leb 0.6%float f
  | PyInt z => bool_decide (1 ≤ z)
  end.

(** The log line with which [process_notification] starts on the
    notification [id]. *)
Definition is_processing_of (id : string) (ev : LogEvent) : bool :=
  match ev with
  | LogProcessing _ i => bool_decide (i = id)
  | _ => false
  end.

Definition processing_events (id : string) (l : list LogEvent) : nat :=
  length (filter (λ ev, is_processing_of id ev = true) l).

(** How many times [process_notification] was started on [id]. *)
Definition times_processed (id : string) (s : State) : nat :=
  processing_events id (log s).

Arguments processing_events : simpl never.
Arguments times_processed : simpl never.

(** A list of log lines none of which starts the processing of a
    notification. *)
Definition quiet (l : list LogEvent) : Prop :=
  ∀ id, Forall (λ ev, is_processing_of id ev = false) l.

(** The state without its log and its list of client calls: the ledger,
    the dedup store, and the counters of the collaborators. *)
Definition core (s : State) :=
  (tracker s, processed_ids s, processed_file s, chat_calls s, clock_reads s,
   slept s).

(** Three [take_action] calls in a row on the same established author,
    each with a [MILDLY_NEGATIVE] decision of confidence 0.9. *)
Definition three_mild_events (cfg : Config) (status_id : option string) : State :=
  let d := decision_of "MILDLY_NEGATIVE" 0.9 in
  let env := env_of ChatRaises false in
  let step s :=
    snd (ActionHandler.take_action cfg env established_author d status_id s) in
  step (step (step initial_state)).

(** A classifier that finds every text severely negative, with a Mastodon
    client that accepts every call. *)
Definition hostile_env : Env :=
  env_of (answer_of "SEVERELY_NEGATIVE" 0.95) false.

(** The same classifier, with a Mastodon client that refuses every call. *)
Definition refusing_env : Env :=
  env_of (answer_of "SEVERELY_NEGATIVE" 0.95) true.

(** The shipped configuration in live mode with [send_warnings] off. *)
Definition no_warning_config : Config := {|
  dry_run := false;
  allowlist := allowlist default_config;
  ollama_model := ollama_model default_config;
  ollama_host := ollama_host default_config;
  poll_interval := poll_interval default_config;
  processed_ids_file := processed_ids_file default_config;
  log_file := log_file default_config;
  max_retries := max_retries default_config;
  retry_delay := retry_delay default_config;
  mute_threshold := mute_threshold default_config;
  block_threshold := block_threshold default_config;
  infractions_file := infractions_file default_config;
  send_warnings := false;
  warning_visibility := warning_visibility default_config;
  new_account_days := new_account_days default_config;
  new_account_instant_block := new_account_instant_block default_config;
  new_account_no_warning := new_account_no_warning default_config
|}.

(** Two mentions by the same established author, as one fetch returns
    them. *)
Definition two_mentions : list Notification :=
  [mention "1" established_author; mention "2" established_author].

(** The exceptions that leave the processing of a notification: the one
    of the missing [_send_warning], and the one [time.sleep] raises
    between two attempts of [analyze]. *)
Definition item_exception (cfg : Config) (env : Env) (e : Exn) : Prop :=
  e = AttributeError "_send_warning" ∧ send_warnings cfg = true
  ∨ sleep_outcome env (retry_delay cfg) = Some e.

(** ** Accounts as the Mastodon client delivers them *)

(** The value under ['created_at'] in an account dict. The Mastodon
    client parses the date the API sends and delivers a [datetime]; a dict
    built by other means may hold a string, in which [date_parser.parse]
    finds an instant or not. (The client and the parser are libraries the
    program imports.) *)
Inductive CreatedAtValue :=
| CreatedDatetime (instant : Z)
| CreatedString (parsed : option Z).

(** [date_parser.parse(value)]: the parser takes a string or a stream and
    raises [TypeError] on a [datetime]; on a string in which it finds no
    date it raises its [ParserError], a [ValueError]. *)
Definition date_parser_parse (value : CreatedAtValue) : Result Z :=
  match value with
  | CreatedDatetime _ => Raise TypeError
  | CreatedString (Some instant) => Ok instant
  | CreatedString None => Raise ValueError
  end.

(** The account dict with that value under ['created_at']. *)
Definition account_dict (id acct : string) (value : CreatedAtValue) : Author := {|
  author_id := id;
  author_acct := acct;
  created_at := match date_parser_parse value with
                | Ok instant => Some instant
                | Raise _ => None
                end
|}.

(** ** Runs of [take_action] and further configurations *)

(** [k] calls of [take_action] in a row with the same arguments, each for
    a notification of its own: an exception of one call does not keep the
    next one from being made. *)
Fixpoint take_actions (cfg : Config) (env : Env) (author : Author)
    (d : Decision) (sid : option string) (k : nat) (s : State) : State :=
  match k with
  | O => s
  | S k' =>
      take_actions cfg env author d sid k'
        (snd (ActionHandler.take_action cfg env author d sid s))
  end.

(** A configuration with its two delays replaced. *)
Definition set_delays (retry poll : Z) (cfg : Config) : Config := {|
  dry_run := dry_run cfg;
  allowlist := allowlist cfg;
  ollama_model := ollama_model cfg;
  ollama_host := ollama_host cfg;
  poll_interval := poll;
  processed_ids_file := processed_ids_file cfg;
  log_file := log_file cfg;
  max_retries := max_retries cfg;
  retry_delay := retry;
  mute_threshold := mute_threshold cfg;
  block_threshold := block_threshold cfg;
  infractions_file := infractions_file cfg;
  send_warnings := send_warnings cfg;
  warning_visibility := warning_visibility cfg;
  new_account_days := new_account_days cfg;
  new_account_instant_block := new_account_instant_block cfg;
  new_account_no_warning := new_account_no_warning cfg
|}.

(** ** Further observations *)

(** The handle an operation of the tracker is about. *)
Definition op_handle (o : InfractionTracker.Op) : string :=
  match o with
  | InfractionTracker.OpAdd _ a _ _ => a
  | InfractionTracker.OpGet a => a
  | InfractionTracker.OpReset a => a
  end.

(** How harsh an action is. *)
Definition severity (a : Action) : nat :=
  match a with
  | none => 0
  | mute => 1
  | block => 2
  end.

(** A configuration with its two thresholds replaced. *)
Definition set_thresholds (m b : Z) (cfg : Config) : Config := {|
  dry_run := dry_run cfg;
  allowlist := allowlist cfg;
  ollama_model := ollama_model cfg;
  ollama_host := ollama_host cfg;
  poll_interval := poll_interval cfg;
  processed_ids_file := processed_ids_file cfg;
  log_file := log_file cfg;
  max_retries := max_retries cfg;
  retry_delay := retry_delay cfg;
  mute_threshold := m;
  block_threshold := b;
  infractions_file := infractions_file cfg;
  send_warnings := send_warnings cfg;
  warning_visibility := warning_visibility cfg;
  new_account_days := new_account_days cfg;
  new_account_instant_block := new_account_instant_block cfg;
  new_account_no_warning := new_account_no_warning cfg
|}.

(** Two malformed answers, then a valid one. *)
Definition recovering_env : Env := {|
  chat := λ _ k, if bool_decide (k < 2)%nat then ChatMalformed
                 else answer_of "MILDLY_NEGATIVE" 0.7;
  client_raises := λ _ _, false;
  clock := λ _, day 1000;
  extract_text := λ text, text;
  sleep_refused := λ _, false
|}.

(** The ids of the notifications whose processing a list of log lines
    records as started, in order. *)
Definition processed_order (l : list LogEvent) : list string :=
  omap (λ ev, match ev with LogProcessing _ id => Some id | _ => None end) l.

(** An [add_infraction]. *)
Definition is_add (o : InfractionTracker.Op) : bool :=
  match o with
  | InfractionTracker.OpAdd _ _ _ _ => true
  | _ => false
  end.


(** ** The file of processed ids *)

(** A text is a [string] whose characters stand for the code points below
    256. A file of text is seen through [open] in text mode with the
    default [newline]: what is written has each line feed replaced by the
    line separator of the platform, what is read has the three line
    endings replaced by a line feed. *)

(** The line feed and the carriage return. *)
Definition LF : Ascii.ascii := Eval cbv in Ascii.ascii_of_N 10.
Definition CR : Ascii.ascii := Eval cbv in Ascii.ascii_of_N 13.

(** [str.isspace] on one character: the code points 9 to 13, 28 to 32,
    133 and 160. *)
Definition isspace (c : Ascii.ascii) : bool :=
  let n := Ascii.N_of_ascii c in
  ((9 <=? n) && (n <=? 13) || (28 <=? n) && (n <=? 32)
   || (n =? 133) || (n =? 160))%N.

Fixpoint lstrip (s : string) : string :=
  match s with
  | EmptyString => EmptyString
  | String c s' => if isspace c then lstrip s' else s
  end.

Fixpoint rstrip (s : string) : string :=
  match s with
  | EmptyString => EmptyString
  | String c s' =>
      match rstrip s' with
      | EmptyString => if isspace c then EmptyString else String c EmptyString
      | r => String c r
      end
  end.

(** [str.strip()]. *)
Definition strip (s : string) : string := rstrip (lstrip s).

(** [os.linesep] is a line feed, or a carriage return and a line feed. *)
Inductive Platform :=
| Posix
| Windows.

Definition linesep (p : Platform) : string :=
  match p with
  | Posix => String LF EmptyString
  | Windows => String CR (String LF EmptyString)
  end.

(** What [f.write(text)] adds to a file opened in text mode. *)
Fixpoint write_text (p : Platform) (text : string) : string :=
  match text with
  | EmptyString => EmptyString
  | String c text' =>
      (if bool_decide (c = LF) then linesep p else String c EmptyString)
        +:+ write_text p text'
  end.

(** What is read from a file opened in text mode; [after_cr] tells that
    the character before was a carriage return, whose line feed is
    already read. *)
Fixpoint read_text (after_cr : bool) (raw : string) : string :=
  match raw with
  | EmptyString => EmptyString
  | String c raw' =>
      if bool_decide (c = CR) then String LF (read_text true raw')
      else if bool_decide (c = LF) then
        if after_cr then read_text false raw'
        else String LF (read_text false raw')
      else String c (read_text false raw')
  end.

(** [for line in f]: the lines of a text, each with its line feed, which
    the last one may lack. *)
Fixpoint lines (text : string) : list string :=
  match text with
  | EmptyString => []
  | String c text' =>
      if bool_decide (c = LF) then String LF EmptyString :: lines text'
      else match lines text' with
           | [] => [String c EmptyString]
           | l :: ls => String c l :: ls
           end
  end.

(** The file named by [processed_ids_file] is [None] when it does not
    exist and its content otherwise. *)
Module ProcessedIds.

Definition _load_processed_ids (file : option string) : gset string :=
  match file with
  | None => ∅
  | Some raw => list_to_set (strip <$> lines (read_text false raw))
  end.

(** [NotificationProcessor.__init__]: nothing is appended yet. *)
Definition __init__ (file : option string) (s : State) : State :=
  set_processed (_load_processed_ids file) [] s.

(** The file once [mark_processed] has appended the line of an id. *)
Definition append_id (p : Platform) (file : option string)
    (notification_id : string) : option string :=
  Some (default EmptyString file
          +:+ write_text p (notification_id +:+ String LF EmptyString)).

(** The file once the lines of [appended] are written, in order. *)
Definition file_after (p : Platform) (file : option string)
    (appended : list string) : option string :=
  foldl (append_id p) file appended.

End ProcessedIds.

(** An id that makes one line of a file and that [strip] leaves whole. *)
Definition line_safe (id : string) : bool :=
  bool_decide (strip id = id)
  && forallb (λ c, negb (bool_decide (c = LF)) && negb (bool_decide (c = CR)))
             (String.list_ascii_of_string id).

(** A text that is empty or ends with a line feed. *)
Fixpoint terminated (raw : string) : bool :=
  match raw with
  | EmptyString => true
  | String c raw' =>
      match raw' with
      | EmptyString => bool_decide (c = LF)
      | _ => terminated raw'
      end
  end.

(** A file of ids that is absent, empty, or ends with a line feed. *)
Definition whole_lines (file : option string) : bool :=
  match file with
  | None => true
  | Some raw => terminated raw
  end.
(** * Properties *)

(** ** Proof support *)

Ltac run_m :=
  unfold bind, ret, raise, try_except, logger, datetime_now, client_call;
  cbn.

Ltac split_cases :=
  repeat match goal with
         | |- context [bool_decide ?P] => destruct (bool_decide P) eqn:?; cbn
         | |- context [match created_at ?a with _ => _ end] =>
             destruct (created_at a) eqn:?; cbn
         | |- context [if ?b then _ else _] => destruct b eqn:?; cbn
         | |- context [match ?a with mute => _ | block => _ | none => _ end] =>
             destruct a eqn:?; cbn
         end.

Ltac bool_facts :=
  repeat match goal with
         | H : _ && _ = true |- _ => apply andb_prop in H as [? ?]
         | H : negb _ = true |- _ => apply negb_true_iff in H
         | H : negb _ = false |- _ => apply negb_false_iff in H
         end.

Lemma bind_ok {A B} (m : M A) (k : A → M B) s a s' :
  m s = (Ok a, s') → bind m k s = k a s'.
Proof. intros H. unfold bind. by rewrite H. Qed.

Lemma bind_raise {A B} (m : M A) (k : A → M B) s e s' :
  m s = (Raise e, s') → bind m k s = (Raise e, s').
Proof. intros H. unfold bind. by rewrite H. Qed.

Lemma bind_logger {B} ev (k : unit → M B) s :
  bind (logger ev) k s = k tt (set_log (log s ++ [ev]) s).
Proof. reflexivity. Qed.

Lemma time_sleep_ok env seconds s :
  sleep_outcome env seconds = None →
  time_sleep env seconds s = (Ok tt, set_slept (slept s + seconds) s).
Proof. intros H. unfold time_sleep. by rewrite H. Qed.

Lemma time_sleep_raise env seconds s e :
  sleep_outcome env seconds = Some e →
  time_sleep env seconds s = (Raise e, s).
Proof. intros H. unfold time_sleep. by rewrite H. Qed.

Lemma set_dry_run_id cfg : set_dry_run (dry_run cfg) cfg = cfg.
Proof. by destruct cfg. Qed.

(** *** Counting the notifications processed, in the log *)

Lemma quiet_nil : quiet [].
Proof. intros id. constructor. Qed.

Lemma quiet_app l1 l2 : quiet l1 → quiet l2 → quiet (l1 ++ l2).
Proof. intros H1 H2 id. apply Forall_app. split; [apply H1|apply H2]. Qed.

Lemma processing_events_app id l1 l2 :
  processing_events id (l1 ++ l2)
    = (processing_events id l1 + processing_events id l2)%nat.
Proof. unfold processing_events. by rewrite filter_app, length_app. Qed.

Lemma processing_events_singleton id ev :
  processing_events id [ev] = if is_processing_of id ev then 1%nat else 0%nat.
Proof.
  unfold processing_events. cbn.
  destruct (is_processing_of id ev); reflexivity.
Qed.

Lemma processing_events_quiet id l : quiet l → processing_events id l = 0%nat.
Proof.
  intros Hq. specialize (Hq id). unfold processing_events.
  induction Hq as [|ev l' Hev _ IH]; [done|].
  rewrite filter_cons_False; [done|]. rewrite Hev. discriminate.
Qed.

Lemma times_processed_extend id s s' l :
  log s' = log s ++ l →
  times_processed id s' = (times_processed id s + processing_events id l)%nat.
Proof.
  intros Hl. unfold times_processed. rewrite Hl. apply processing_events_app.
Qed.

Ltac count_log :=
  unfold times_processed; cbn;
  rewrite ?processing_events_app, ?processing_events_singleton; cbn; lia.

(** *** States that differ only by the log and the client calls *)

Lemma core_eq s1 s2 :
  core s1 = core s2 ↔
  tracker s1 = tracker s2 ∧ processed_ids s1 = processed_ids s2
  ∧ processed_file s1 = processed_file s2 ∧ chat_calls s1 = chat_calls s2
  ∧ clock_reads s1 = clock_reads s2 ∧ slept s1 = slept s2.
Proof.
  unfold core. split.
  - intros [= -> -> -> -> -> ->]. done.
  - intros (-> & -> & -> & -> & -> & ->). done.
Qed.

Lemma core_set_log s1 s2 l1 l2 :
  core s1 = core s2 → core (set_log l1 s1) = core (set_log l2 s2).
Proof. intros H. apply core_eq in H. apply core_eq. exact H. Qed.

(** *** Comparison with the confidence floor *)

Lemma SFcompare_antisym x y :
  SFcompare y x = option_map CompOpp (SFcompare x y).
Proof.
  destruct x as [sx|sx| |sx mx ex], y as [sy|sy| |sy my ey]; try reflexivity;
    try (destruct sx, sy; reflexivity); try (destruct sx; reflexivity);
    try (destruct sy; reflexivity).
  cbn. destruct sx, sy; try reflexivity.
  all: rewrite (Z.compare_antisym ey ex); destruct (ey ?= ex)%Z; cbn; try reflexivity.
  all: change (PosDef.Pos.compare_cont Eq my mx) with (my ?= mx)%positive.
  all: change (PosDef.Pos.compare_cont Eq mx my) with (mx ?= my)%positive.
  all: rewrite (Pos.compare_antisym mx my); destruct (mx ?= my)%positive; reflexivity.
Qed.

Lemma leb_not_ltb (x y : float) :
  PrimFloat.leb y x = true → PrimFloat.ltb x y = false.
Proof.
  rewrite leb_spec, ltb_spec. unfold SFleb, SFltb.
  rewrite (SFcompare_antisym (Prim2SF x) (Prim2SF y)).
  destruct (SFcompare (Prim2SF x) (Prim2SF y)) as [[]|]; cbn; congruence.
Qed.

(** A confidence of at least 0.6 is not below the floor (neither is
    [nan], which is not at least 0.6 either). *)
Lemma at_least_floor_not_below c :
  at_least_confidence_floor c = true → below_confidence_floor c = false.
Proof.
  destruct c as [z|f]; cbn.
  - intros H%bool_decide_eq_true. apply bool_decide_eq_false. lia.
  - apply leb_not_ltb.
Qed.

(** ** The infraction ledger *)

Module TrackerFacts.
Import InfractionTracker.

Lemma add_infraction_lookup now a c r tr b :
  infractions (add_infraction now a c r tr) !! b =
    if decide (a = b)
    then Some {| count := get_count a tr + 1;
                 history := get_history a tr ++
                   [{| h_timestamp := now; h_classification := c;
                       h_reason := r |}] |}
    else infractions tr !! b.
Proof.
  unfold add_infraction, get_count, get_history. cbn.
  destruct (decide (a = b)) as [<-|Hne].
  - destruct (infractions tr !! a) as [rec|] eqn:Hl.
    + rewrite !lookup_alter_eq, Hl. reflexivity.
    + rewrite !lookup_alter_eq, lookup_insert_eq. reflexivity.
  - rewrite !lookup_alter_ne by done.
    destruct (infractions tr !! a); [done|].
    by rewrite lookup_insert_ne.
Qed.

Lemma get_count_add_eq now a c r tr :
  get_count a (add_infraction now a c r tr) = get_count a tr + 1.
Proof.
  unfold get_count at 1. rewrite add_infraction_lookup.
  by rewrite decide_True.
Qed.

Lemma get_count_add_ne now a b c r tr :
  a ≠ b → get_count b (add_infraction now a c r tr) = get_count b tr.
Proof.
  intros Hne. unfold get_count. rewrite add_infraction_lookup.
  by rewrite decide_False.
Qed.

Lemma get_history_add_eq now a c r tr :
  get_history a (add_infraction now a c r tr) =
    get_history a tr ++
      [{| h_timestamp := now; h_classification := c; h_reason := r |}].
Proof.
  unfold get_history at 1. rewrite add_infraction_lookup.
  by rewrite decide_True.
Qed.

Lemma reset_lookup a tr b :
  infractions (reset a tr) !! b =
    if decide (a = b) then None else infractions tr !! b.
Proof.
  unfold reset. destruct (decide (a = b)) as [<-|Hne].
  - destruct (infractions tr !! a) eqn:Hl; cbn; [|done].
    apply lookup_delete_eq.
  - destruct (infractions tr !! a); cbn; [|done].
    by rewrite lookup_delete_ne.
Qed.

Lemma get_count_reset_eq a tr : get_count a (reset a tr) = 0.
Proof. unfold get_count. rewrite reset_lookup. by rewrite decide_True. Qed.

Lemma get_count_reset_ne a b tr :
  a ≠ b → get_count b (reset a tr) = get_count b tr.
Proof.
  intros Hne. unfold get_count. rewrite reset_lookup.
  by rewrite decide_False.
Qed.

Lemma consistent_get a tr :
  consistent (infractions tr) →
  get_count a tr = Z.of_nat (length (get_history a tr)).
Proof.
  intros Hc. unfold get_count, get_history.
  destruct (infractions tr !! a) as [rec|] eqn:Hl; [|done].
  exact (Hc a rec Hl).
Qed.

Lemma add_infraction_consistent now a c r tr :
  consistent (infractions tr) →
  consistent (infractions (add_infraction now a c r tr)).
Proof.
  intros Hc b rec. rewrite add_infraction_lookup.
  destruct (decide (a = b)) as [<-|Hne].
  - intros [= <-]. cbn. rewrite length_app, (consistent_get a tr Hc). cbn. lia.
  - apply Hc.
Qed.

Lemma reset_consistent a tr :
  consistent (infractions tr) → consistent (infractions (reset a tr)).
Proof.
  intros Hc b rec. rewrite reset_lookup.
  destruct (decide (a = b)); [done|]. apply Hc.
Qed.

Lemma apply_op_consistent o tr :
  consistent (infractions tr) → consistent (infractions (apply_op o tr)).
Proof.
  intros Hc. destruct o; cbn; [by apply add_infraction_consistent|done|by apply reset_consistent].
Qed.

Lemma run_ops_consistent ops : ∀ tr,
  consistent (infractions tr) → consistent (infractions (run_ops ops tr)).
Proof.
  induction ops as [|o ops IH]; intros tr Hc; [done|].
  cbn. apply IH, apply_op_consistent, Hc.
Qed.

Lemma apply_op_count_mono a o tr :
  is_reset_of a o = false → get_count a tr ≤ get_count a (apply_op o tr).
Proof.
  destruct o as [now b c r|b|b]; cbn; intros Hr.
  - destruct (decide (b = a)) as [->|Hne].
    + rewrite get_count_add_eq. lia.
    + by rewrite get_count_add_ne.
  - done.
  - apply bool_decide_eq_false in Hr. by rewrite get_count_reset_ne.
Qed.

Lemma run_ops_count_mono a ops : ∀ tr,
  forallb (λ o, negb (is_reset_of a o)) ops = true →
  get_count a tr ≤ get_count a (run_ops ops tr).
Proof.
  induction ops as [|o ops IH]; intros tr Hall; [done|].
  cbn in Hall. apply andb_prop in Hall as [Ho Hall].
  apply negb_true_iff in Ho. cbn.
  etrans; [apply (apply_op_count_mono a o tr Ho)|]. by apply IH.
Qed.

Lemma load_fresh_consistent : consistent (_load FileAbsent) ∧ consistent (_load FileCorrupt).
Proof. split; apply map_Forall_empty. Qed.

Lemma save_load tr : _load (file (_save tr)) = infractions tr.
Proof. reflexivity. Qed.

End TrackerFacts.

(** ** The classification gateway *)

Section Analyze.
Variables (cfg : Config) (env : Env) (text : string).

Lemma attempt_body_ok s d :
  attempt_result (chat env text (chat_calls s)) = Ok d →
  AIAnalyzer.attempt_body env text s
    = (Ok d, set_log (log s ++ [LogClassified (classification d) (confidence d);
                                LogReason (reason d)])
               (set_chat_calls (S (chat_calls s)) s)).
Proof.
  intros H. unfold AIAnalyzer.attempt_body. rewrite H. run_m.
  by rewrite <- app_assoc.
Qed.

Lemma attempt_body_raise s e :
  attempt_result (chat env text (chat_calls s)) = Raise e →
  AIAnalyzer.attempt_body env text s = (Raise e, set_chat_calls (S (chat_calls s)) s).
Proof. intros H. unfold AIAnalyzer.attempt_body. by rewrite H. Qed.

(** The loop touches only the log, the count of calls of the classifier
    and the time slept, and the only exception that leaves it is the one
    of [time.sleep]. *)
Lemma attempts_frame remaining : ∀ attempt s,
  ∃ r s',
    AIAnalyzer.attempts cfg env text attempt remaining s = (r, s')
    ∧ tracker s' = tracker s
    ∧ processed_ids s' = processed_ids s
    ∧ processed_file s' = processed_file s
    ∧ client_calls s' = client_calls s
    ∧ clock_reads s' = clock_reads s
    ∧ (∃ l, log s' = log s ++ l ∧ quiet l)
    ∧ match r with
      | Ok _ => True
      | Raise e => sleep_outcome env (retry_delay cfg) = Some e
      end.
Proof.
  induction remaining as [|n IH]; intros attempt s.
  - exists (Ok None), s. cbn. repeat split. exists []. split; [by rewrite app_nil_r|apply quiet_nil].
  - cbn [AIAnalyzer.attempts]. unfold bind at 1, try_except, bind at 1.
    destruct (attempt_result (chat env text (chat_calls s))) as [d|e] eqn:Hr.
    + rewrite (attempt_body_ok s d Hr). cbn.
      do 2 eexists. split; [reflexivity|]. cbn. repeat split.
      eexists. split; [reflexivity|]. intros id. repeat constructor.
    + rewrite (attempt_body_raise s e Hr).
      unfold bind at 1. unfold logger at 1. unfold bind at 1.
      set (s1 := set_log _ _).
      destruct (bool_decide (attempt < max_retries cfg - 1)).
      * unfold time_sleep.
        destruct (sleep_outcome env (retry_delay cfg)) as [e'|] eqn:Hsl.
        -- exists (Raise e'), s1. cbn. repeat split.
           eexists. split; [reflexivity|]. intros id. repeat constructor.
        -- run_m.
           match goal with
           | |- context [AIAnalyzer.attempts _ _ _ _ _ ?s2] =>
               destruct (IH (attempt + 1) s2)
                 as (r & s' & -> & Ht & Hp & Hf & Hc & Hk & (l & Hl & Hq) & Hr')
           end.
           exists r, s'; cbn in *; repeat split; try congruence.
           eexists; split; [rewrite Hl, <- !app_assoc; reflexivity|].
           intros id; cbn; repeat (constructor; [reflexivity|]); apply Hq.
      * run_m.
        match goal with
        | |- context [AIAnalyzer.attempts _ _ _ _ _ ?s2] =>
            destruct (IH (attempt + 1) s2)
              as (r & s' & -> & Ht & Hp & Hf & Hc & Hk & (l & Hl & Hq) & Hr')
        end.
        exists r, s'; cbn in *; repeat split; try congruence.
        eexists; split; [rewrite Hl, <- !app_assoc; reflexivity|].
        intros id; cbn; repeat (constructor; [reflexivity|]); apply Hq.
Qed.

(** When [time.sleep] accepts [retry_delay], the loop ends without an
    exception. *)
Lemma attempts_returns remaining attempt s :
  sleep_outcome env (retry_delay cfg) = None →
  ∃ r s', AIAnalyzer.attempts cfg env text attempt remaining s = (Ok r, s').
Proof.
  intros Hsl.
  destruct (attempts_frame remaining attempt s) as (r & s' & Ha & H).
  destruct r as [r|e]; [eauto|].
  do 6 destruct H as [_ H]. congruence.
Qed.

Lemma attempts_all_fail remaining : ∀ attempt s,
  sleep_outcome env (retry_delay cfg) = None →
  (∀ k, (k < remaining)%nat →
        ∃ e, attempt_result (chat env text (chat_calls s + k)%nat) = Raise e) →
  ∃ s', AIAnalyzer.attempts cfg env text attempt remaining s = (Ok None, s')
        ∧ chat_calls s' = (chat_calls s + remaining)%nat.
Proof.
  intros attempt s Hsl. revert attempt s.
  induction remaining as [|n IH]; intros attempt s Hfail.
  - exists s. cbn. split; [done|lia].
  - destruct (Hfail 0%nat ltac:(lia)) as [e He].
    rewrite Nat.add_0_r in He.
    assert (Hnext : ∀ s2, chat_calls s2 = S (chat_calls s) →
              ∀ k, (k < n)%nat →
                ∃ e', attempt_result (chat env text (chat_calls s2 + k)%nat) = Raise e').
    { intros s2 Hs2 k Hk. destruct (Hfail (S k) ltac:(lia)) as [e' He'].
      exists e'. rewrite <- He'. do 2 f_equal. lia. }
    cbn [AIAnalyzer.attempts]. unfold bind at 1, try_except, bind at 1.
    rewrite (attempt_body_raise s e He).
    unfold bind at 1. unfold logger at 1. unfold bind at 1.
    unfold time_sleep. rewrite Hsl.
    destruct (bool_decide (attempt < max_retries cfg - 1)); run_m.
    all: match goal with
         | |- context [AIAnalyzer.attempts _ _ _ _ _ ?s2] =>
             destruct (IH (attempt + 1) s2 (Hnext s2 eq_refl)) as (s' & -> & Hs')
         end.
    all: exists s'; split; [done|]; rewrite Hs'; cbn; lia.
Qed.

Lemma analyze_frame s :
  ∃ r s',
    AIAnalyzer.analyze cfg env text s = (r, s')
    ∧ tracker s' = tracker s
    ∧ processed_ids s' = processed_ids s
    ∧ processed_file s' = processed_file s
    ∧ client_calls s' = client_calls s
    ∧ clock_reads s' = clock_reads s
    ∧ (∃ l, log s' = log s ++ l ∧ quiet l)
    ∧ match r with
      | Ok _ => True
      | Raise e => sleep_outcome env (retry_delay cfg) = Some e
      end.
Proof.
  unfold AIAnalyzer.analyze, bind.
  destruct (attempts_frame (Z.to_nat (max_retries cfg)) 0 s)
    as (r & s' & -> & H).
  destruct r as [[d|]|e]; cbn; eauto.
Qed.

Lemma analyze_returns s :
  sleep_outcome env (retry_delay cfg) = None →
  ∃ d s', AIAnalyzer.analyze cfg env text s = (Ok d, s').
Proof.
  intros Hsl.
  destruct (analyze_frame s) as (r & s' & Ha & H).
  destruct r as [d|e]; [eauto|].
  do 6 destruct H as [_ H]. congruence.
Qed.

Lemma analyze_all_fail s :
  sleep_outcome env (retry_delay cfg) = None →
  (∀ k, (k < Z.to_nat (max_retries cfg))%nat →
        ∃ e, attempt_result (chat env text (chat_calls s + k)%nat) = Raise e) →
  fst (AIAnalyzer.analyze cfg env text s) = Ok failsafe.
Proof.
  intros Hsl Hfail. unfold AIAnalyzer.analyze, bind.
  destruct (attempts_all_fail _ 0 s Hsl Hfail) as (s' & -> & _). reflexivity.
Qed.

End Analyze.

Lemma attempts_dry_live cfg env text remaining : ∀ attempt s1 s2,
  core s1 = core s2 →
  ∃ r s1' s2',
    AIAnalyzer.attempts (set_dry_run true cfg) env text attempt remaining s1 = (r, s1')
    ∧ AIAnalyzer.attempts (set_dry_run false cfg) env text attempt remaining s2 = (r, s2')
    ∧ core s1' = core s2'
    ∧ client_calls s1' = client_calls s1.
Proof.
  induction remaining as [|n IH]; intros attempt s1 s2 Hcore.
  - exists (Ok None), s1, s2. done.
  - apply core_eq in Hcore as (Ht & Hp & Hf & Hc & Hk & Hs).
    destruct s1, s2; cbn in Ht, Hp, Hf, Hc, Hk, Hs; subst.
    cbn [AIAnalyzer.attempts]. unfold bind, try_except, AIAnalyzer.attempt_body.
    cbn [chat_calls].
    destruct (attempt_result _) as [d|e]; run_m.
    + do 3 eexists. do 2 (split; [reflexivity|]). done.
    + change (retry_delay (set_dry_run true cfg)) with (retry_delay cfg).
      change (retry_delay (set_dry_run false cfg)) with (retry_delay cfg).
      change (max_retries (set_dry_run true cfg)) with (max_retries cfg).
      change (max_retries (set_dry_run false cfg)) with (max_retries cfg).
      unfold time_sleep.
      destruct (bool_decide (attempt < max_retries cfg - 1)); cbn;
        [destruct (sleep_outcome env (retry_delay cfg)); cbn|].
      1: do 3 eexists; do 2 (split; [reflexivity|]); done.
      all: match goal with
           | |- context [AIAnalyzer.attempts (set_dry_run true _) _ _ _ _ ?t1] =>
               match goal with
               | |- context [AIAnalyzer.attempts (set_dry_run false _) _ _ _ _ ?t2] =>
                   destruct (IH (attempt + 1) t1 t2) as (r & s1' & s2' & -> & -> & Hco & Hcc);
                     [done|]
               end
           end.
      all: exists r, s1', s2'; done.
Qed.

Lemma analyze_dry_live cfg env text s1 s2 :
  core s1 = core s2 →
  ∃ r s1' s2',
    AIAnalyzer.analyze (set_dry_run true cfg) env text s1 = (r, s1')
    ∧ AIAnalyzer.analyze (set_dry_run false cfg) env text s2 = (r, s2')
    ∧ core s1' = core s2'
    ∧ client_calls s1' = client_calls s1.
Proof.
  intros Hcore. unfold AIAnalyzer.analyze, bind.
  destruct (attempts_dry_live cfg env text (Z.to_nat (max_retries cfg)) 0 s1 s2 Hcore)
    as (r & s1' & s2' & H1 & H2 & Hco & Hcc).
  change (max_retries (set_dry_run true cfg)) with (max_retries cfg).
  change (max_retries (set_dry_run false cfg)) with (max_retries cfg).
  rewrite H1, H2.
  destruct r as [[d|]|e]; eauto 10.
Qed.

(** ** The escalation policy *)

Lemma is_negative_cases c :
  is_negative c = true → c = "MILDLY_NEGATIVE" ∨ c = "SEVERELY_NEGATIVE".
Proof.
  unfold is_negative. intros H%bool_decide_eq_true.
  apply elem_of_cons in H as [->|H]; [by left|].
  apply elem_of_cons in H as [->|H]; [by right|].
  by apply elem_of_nil in H.
Qed.

Lemma is_negative_not_neutral c :
  is_negative c = true → bool_decide (c = "NEUTRAL") = false.
Proof.
  intros [->| ->]%is_negative_cases; reflexivity.
Qed.

Lemma take_action_frame cfg env author d sid s :
  ∃ r s',
    ActionHandler.take_action cfg env author d sid s = (r, s')
    ∧ processed_ids s' = processed_ids s
    ∧ processed_file s' = processed_file s
    ∧ chat_calls s' = chat_calls s
    ∧ slept s' = slept s
    ∧ (∃ l, log s' = log s ++ l ∧ quiet l)
    ∧ (r = Ok tt
       ∨ r = Raise (AttributeError "_send_warning")
         ∧ send_warnings cfg = true ∧ truthy sid = true)
    ∧ (dry_run cfg = true → client_calls s' = client_calls s).
Proof.
  unfold ActionHandler.take_action, ActionHandler._is_new_account,
    ActionHandler._execute_action, ActionHandler._send_warning.
  run_m. split_cases.
  all: do 2 eexists; (split; [reflexivity|]); cbn.
  all: repeat split; auto.
  all: try (eexists; split; [rewrite <- ?app_assoc; try reflexivity; symmetry; apply app_nil_r|]; intros; repeat constructor).
  all: bool_facts; try (intros; congruence); auto.
Qed.

Lemma take_action_dry_live cfg env author d sid s1 s2 :
  core s1 = core s2 →
  ∃ r s1' s2',
    ActionHandler.take_action (set_dry_run true cfg) env author d sid s1 = (r, s1')
    ∧ ActionHandler.take_action (set_dry_run false cfg) env author d sid s2 = (r, s2')
    ∧ core s1' = core s2'
    ∧ client_calls s1' = client_calls s1.
Proof.
  intros (Ht & Hp & Hf & Hc & Hk & Hs)%core_eq.
  destruct s1, s2; cbn in *; subst.
  unfold ActionHandler.take_action, ActionHandler._is_new_account,
    ActionHandler._execute_action, ActionHandler._send_warning,
    ActionHandler._determine_action.
  run_m. split_cases.
  all: do 3 eexists; (split; [reflexivity|]); (split; [reflexivity|]); cbn.
  all: split; reflexivity.
Qed.

Lemma is_new_account_result cfg env author s b :
  fst (ActionHandler._is_new_account cfg env author s) = Ok b →
  ∃ s1,
    ActionHandler._is_new_account cfg env author s = (Ok b, s1)
    ∧ tracker s1 = tracker s
    ∧ client_calls s1 = client_calls s.
Proof.
  unfold ActionHandler._is_new_account. run_m.
  destruct (created_at author) as [t|]; cbn.
  - destruct (bool_decide _); cbn; intros [= <-];
      (eexists; split; [reflexivity|]); done.
  - intros [= <-]. eexists. split; [reflexivity|]. done.
Qed.

(** The path of [take_action] through the ledger: the gates are passed and
    the instant block of a new account does not apply. *)
Lemma take_action_ledger_path cfg env author d sid s b :
  is_negative (classification d) = true →
  below_confidence_floor (confidence d) = false →
  author_acct author ∉ allowlist cfg →
  fst (ActionHandler._is_new_account cfg env author s) = Ok b →
  b && new_account_instant_block cfg = false →
  ∃ now r s',
    let acct := author_acct author in
    let n := InfractionTracker.get_count acct (tracker s) + 1 in
    let action := ActionHandler._determine_action cfg (classification d) n in
    ActionHandler.take_action cfg env author d sid s = (r, s')
    ∧ tracker s'
        = InfractionTracker.add_infraction now acct (classification d) (reason d)
            (tracker s)
    ∧ (if send_warnings cfg && truthy sid && negb (b && new_account_no_warning cfg)
       then r = Raise (AttributeError "_send_warning")
            ∧ client_calls s' = client_calls s
       else r = Ok tt
            ∧ client_calls s'
                = client_calls s ++
                    (if dry_run cfg then [] else calls_of action (author_id author))
            ∧ (if bool_decide (action = none)
               then LogTracking n acct ∈ log s'
               else LogActioning action acct n ∈ log s')).
Proof.
  intros Hneg Hconf Hallow Hnew Hinst.
  destruct (is_new_account_result cfg env author s b Hnew)
    as (s1 & Hs1 & Ht1 & Hc1).
  unfold ActionHandler.take_action.
  rewrite (is_negative_not_neutral _ Hneg), Hconf, (bool_decide_eq_false_2 _ Hallow).
  rewrite (bind_ok _ _ _ _ _ Hs1). rewrite Hinst. cbn [andb]. rewrite Hneg.
  unfold bind at 1. unfold bind at 1. unfold datetime_now at 1.
  unfold bind at 1.
  exists (clock env (clock_reads s1)).
  cbn [tracker set_tracker set_clock_reads].
  rewrite Ht1, TrackerFacts.get_count_add_eq.
  set (n := InfractionTracker.get_count (author_acct author) (tracker s) + 1).
  destruct (send_warnings cfg && truthy sid) eqn:Hw; cbn [andb];
    [destruct (negb (b && new_account_no_warning cfg)) eqn:Hnw|].
  - unfold ActionHandler._send_warning, bind at 1, raise.
    do 2 eexists. cbn. split; [reflexivity|]. cbn. by rewrite Ht1.
  - unfold bind at 1, ret at 1.
    destruct (ActionHandler._determine_action cfg (classification d) n) eqn:Hact;
      unfold ActionHandler._execute_action;
      [rewrite !(bool_decide_eq_false_2 (mute = none)) by discriminate
      |rewrite !(bool_decide_eq_false_2 (block = none)) by discriminate
      |rewrite !(bool_decide_eq_true_2 (none = none)) by reflexivity];
      run_m.
    all: destruct (dry_run cfg); cbn.
    all: try match goal with
             | |- context [client_raises ?e ?c ?l] =>
                 destruct (client_raises e c l); cbn
             end.
    all: do 2 eexists; (split; [reflexivity|]); cbn; rewrite ?Ht1, ?Hc1, ?app_nil_r.
    all: repeat split; set_solver.
  - unfold bind at 1, ret at 1.
    destruct (ActionHandler._determine_action cfg (classification d) n) eqn:Hact;
      unfold ActionHandler._execute_action;
      [rewrite !(bool_decide_eq_false_2 (mute = none)) by discriminate
      |rewrite !(bool_decide_eq_false_2 (block = none)) by discriminate
      |rewrite !(bool_decide_eq_true_2 (none = none)) by reflexivity];
      run_m.
    all: destruct (dry_run cfg); cbn.
    all: try match goal with
             | |- context [client_raises ?e ?c ?l] =>
                 destruct (client_raises e c l); cbn
             end.
    all: do 2 eexists; (split; [reflexivity|]); cbn; rewrite ?Ht1, ?Hc1, ?app_nil_r.
    all: repeat split; set_solver.
Qed.

Lemma determine_action_severe cfg n :
  ActionHandler._determine_action cfg "SEVERELY_NEGATIVE" n
    = if bool_decide (block_threshold cfg ≤ n) then block else mute.
Proof. reflexivity. Qed.

Lemma determine_action_mild cfg n :
  ActionHandler._determine_action cfg "MILDLY_NEGATIVE" n
    = if bool_decide (block_threshold cfg ≤ n) then block
      else if bool_decide (mute_threshold cfg ≤ n) then mute
      else none.
Proof. reflexivity. Qed.

(** ** The poll loop *)

Lemma process_notification_frame cfg env n s :
  ∃ r s',
    MastodonFilter.process_notification cfg env n s = (r, s')
    ∧ (r = Ok tt ∧ processed_ids s' = {[notif_id n]} ∪ processed_ids s
       ∨ (∃ e, r = Raise e ∧ item_exception cfg env e)
         ∧ processed_ids s' = processed_ids s)
    ∧ (∀ id, times_processed id s'
             = (times_processed id s
                + if bool_decide (notif_id n = id) then 1 else 0)%nat)
    ∧ (dry_run cfg = true → client_calls s' = client_calls s).
Proof.
  unfold MastodonFilter.process_notification.
  do 3 (unfold bind at 1; unfold logger at 1).
  set (s3 := set_log _ _).
  destruct (analyze_frame cfg env (extract_text env (content n)) s3)
    as (ra & s4 & Ha & _ & Hp4 & _ & Hc4 & _ & (l4 & Hl4 & Hq4) & Hra).
  assert (Hlog4 : ∀ id, times_processed id s4
            = (times_processed id s + if bool_decide (notif_id n = id) then 1 else 0)%nat).
  { intros id.
    rewrite (times_processed_extend id s3 s4 l4 Hl4),
      (processing_events_quiet id l4 (Hq4)).
    unfold times_processed. subst s3. cbn [log set_log].
    rewrite !processing_events_app, !processing_events_singleton.
    cbn [is_processing_of].
    destruct (bool_decide (notif_id n = id)); lia. }
  destruct ra as [d|e].
  2: { rewrite (bind_raise _ _ _ _ _ Ha).
       do 2 eexists. split; [reflexivity|]. repeat split.
       - right. split; [|exact Hp4]. exists e. split; [done|]. by right.
       - exact Hlog4.
       - intros _. exact Hc4. }
  rewrite (bind_ok _ _ _ _ _ Ha).
  destruct (take_action_frame cfg env (account n) d (Some (status_id n)) s4)
    as (r & s5 & Hta & Hp5 & _ & _ & _ & (l5 & Hl5 & Hq5) & Hr & Hc5).
  assert (Hlog : ∀ id, times_processed id s5
            = (times_processed id s + if bool_decide (notif_id n = id) then 1 else 0)%nat).
  { intros id.
    rewrite (times_processed_extend id s4 s5 l5 Hl5),
      (processing_events_quiet id l5 Hq5), Hlog4. lia. }
  destruct Hr as [->|(-> & Hsw & _)].
  - rewrite (bind_ok _ _ _ _ _ Hta). cbn.
    do 2 eexists. split; [reflexivity|]. cbn. repeat split.
    + left. split; [done|]. by rewrite Hp5, Hp4.
    + exact Hlog.
    + intros Hd. by rewrite (Hc5 Hd), Hc4.
  - rewrite (bind_raise _ _ _ _ _ Hta).
    do 2 eexists. split; [reflexivity|]. repeat split.
    + right. split; [|by rewrite Hp5, Hp4]. eexists. split; [done|]. by left.
    + exact Hlog.
    + intros Hd. by rewrite (Hc5 Hd), Hc4.
Qed.

Lemma item_exception_none cfg env e :
  send_warnings cfg = false → sleep_outcome env (retry_delay cfg) = None →
  ¬ item_exception cfg env e.
Proof. intros Hsw Hsl [[_ H]|H]; congruence. Qed.

Lemma process_each_frame cfg env items : ∀ s,
  ∃ r s',
    MastodonFilter.process_each cfg env items s = (r, s')
    ∧ processed_ids s ⊆ processed_ids s'
    ∧ (∀ id, (∀ n, n ∈ items → notif_id n ≠ id) →
             times_processed id s' = times_processed id s)
    ∧ (r = Ok tt → ∀ n, n ∈ items → notif_id n ∈ processed_ids s')
    ∧ (r = Ok tt ∨ ∃ e, r = Raise e ∧ item_exception cfg env e)
    ∧ (dry_run cfg = true → client_calls s' = client_calls s).
Proof.
  induction items as [|n items IH]; intros s.
  - exists (Ok tt), s. cbn. repeat split; try done; [|by left].
    intros _ n Hn. by inversion Hn.
  - cbn [MastodonFilter.process_each].
    destruct (process_notification_frame cfg env n s)
      as (r & s1 & Hpn & Hr & Hlog & Hcalls).
    destruct Hr as [(-> & Hp)|((e & -> & He) & Hp)].
    + rewrite (bind_ok _ _ _ _ _ Hpn).
      destruct (IH s1) as (r' & s' & -> & Hsub & Hlog' & Hall & Hok & Hcalls').
      exists r', s'. repeat split.
      * intros x Hx. apply Hsub. rewrite Hp. apply elem_of_union. by right.
      * intros id Hid. rewrite Hlog', Hlog.
        -- rewrite bool_decide_eq_false_2; [lia|]. apply Hid. by left.
        -- intros m Hm. apply Hid. by right.
      * intros Hr' m [->|Hm]%elem_of_cons; [|by apply Hall].
        apply Hsub. rewrite Hp. apply elem_of_union. left.
        by apply elem_of_singleton.
      * exact Hok.
      * intros Hd. by rewrite (Hcalls' Hd), (Hcalls Hd).
    + rewrite (bind_raise _ _ _ _ _ Hpn).
      exists (Raise e), s1. repeat split.
      * by rewrite Hp.
      * intros id Hid. rewrite Hlog.
        rewrite bool_decide_eq_false_2; [lia|]. apply Hid. by left.
      * discriminate.
      * right. eauto.
      * exact Hcalls.
Qed.

Lemma cycle_body_frame cfg env fetch s :
  ∃ r s',
    MastodonFilter.cycle_body cfg env fetch s = (r, s')
    ∧ processed_ids s ⊆ processed_ids s'
    ∧ (∀ id, id ∈ processed_ids s → times_processed id s' = times_processed id s)
    ∧ (∀ l, fetch = FetchOk l → r = Ok tt → ∀ n, n ∈ l → notif_id n ∈ processed_ids s')
    ∧ (send_warnings cfg = false → sleep_outcome env (retry_delay cfg) = None →
       ∀ l, fetch = FetchOk l → r = Ok tt)
    ∧ (dry_run cfg = true → client_calls s' = client_calls s).
Proof.
  unfold MastodonFilter.cycle_body. unfold bind at 1, logger at 1.
  set (s0 := set_log _ _).
  assert (Hs0 : ∀ id, times_processed id s0 = times_processed id s).
  { intros id. unfold times_processed. subst s0. cbn [log set_log].
    rewrite processing_events_app, processing_events_singleton. cbn. lia. }
  destruct fetch as [l| |]; cbn.
  2,3: exists (Raise MastodonError), s0; repeat split; try done; discriminate.
  unfold bind at 1. cbn. unfold NotificationProcessor.is_processed at 1.
  cbn [processed_ids set_log].
  set (new := filter _ l).
  assert (Hnew : ∀ n, n ∈ reverse new ↔ n ∈ l ∧ notif_id n ∉ processed_ids s).
  { intros n. rewrite elem_of_reverse. subst new. rewrite list_elem_of_filter.
    unfold NotificationProcessor.is_processed. cbn.
    rewrite bool_decide_spec. tauto. }
  destruct (process_each_frame cfg env (reverse new)
              (set_log (log s0 ++ [LogFound (length new)]) s0))
    as (r & s' & Hpe & Hsub & Hlog & Hall & Hok & Hcalls).
  assert (Hquiet : ∀ id, id ∈ processed_ids s →
            times_processed id s' = times_processed id s).
  { intros id Hid. rewrite Hlog.
    - rewrite <- Hs0. unfold times_processed. cbn [log set_log].
      rewrite processing_events_app, processing_events_singleton. cbn. lia.
    - intros n [_ Hn]%Hnew Heq. rewrite Heq in Hn. done. }
  destruct new as [|n0 new'] eqn:Hnew0.
  - exists (Ok tt), (set_log (log s0 ++ [LogNoNew]) s0).
    split; [reflexivity|]. repeat split; try done.
    + intros id _. rewrite <- Hs0. unfold times_processed. cbn [log set_log].
      rewrite processing_events_app, processing_events_singleton. cbn. lia.
    + intros l' [= <-] _ n Hn. cbn.
      destruct (decide (notif_id n ∈ processed_ids s)) as [|Hnot]; [done|].
      assert (n ∈ reverse []) as Hin by (apply Hnew; done). by inversion Hin.
  - exists r, s'. split; [exact Hpe|]. repeat split; try done.
    + intros l' [= <-] Hr n Hn.
      destruct (decide (notif_id n ∈ processed_ids s)) as [Hin|Hnot].
      * apply Hsub. exact Hin.
      * apply (Hall Hr). apply Hnew. done.
    + intros Hsw Hsl l' _. destruct Hok as [->|(e & -> & He)]; [done|].
      by destruct (item_exception_none cfg env e Hsw Hsl).
Qed.

Lemma iteration_frame cfg env fetch s :
  let s' := snd (MastodonFilter.iteration cfg env fetch s) in
  processed_ids s ⊆ processed_ids s'
  ∧ (∀ id, id ∈ processed_ids s → times_processed id s' = times_processed id s)
  ∧ (dry_run cfg = true → client_calls s' = client_calls s).
Proof.
  unfold MastodonFilter.iteration.
  destruct (cycle_body_frame cfg env fetch s)
    as (r & s1 & Hcb & Hsub & Hlog & _ & _ & Hcalls).
  assert (Hone : ∀ id (t : State) ev, is_processing_of id ev = false →
            times_processed id (set_log (log t ++ [ev]) t) = times_processed id t).
  { intros id t ev Hev. unfold times_processed. cbn [log set_log].
    rewrite processing_events_app, processing_events_singleton, Hev. lia. }
  destruct fetch as [l| |]; cbn [snd].
  3: { run_m. repeat split; try done. intros id _.
       count_log. }
  all: unfold try_except; rewrite Hcb.
  all: destruct r as [[]|e]; cbn [snd].
  all: rewrite ?bind_logger; unfold time_sleep.
  all: destruct (sleep_outcome env (poll_interval cfg)) as [e1|].
  all: run_m; repeat split; try done.
  all: try (intros id Hid; rewrite <- (Hlog id Hid)).
  all: try count_log.
Qed.

Lemma loop_frame cfg env fetches : ∀ s,
  let s' := MastodonFilter.loop cfg env fetches s in
  processed_ids s ⊆ processed_ids s'
  ∧ (∀ id, id ∈ processed_ids s → times_processed id s' = times_processed id s)
  ∧ (dry_run cfg = true → client_calls s' = client_calls s).
Proof.
  induction fetches as [|fetch fetches IH]; intros s; cbn.
  - done.
  - pose proof (iteration_frame cfg env fetch s) as (Hsub & Hlog & Hcalls).
    destruct (MastodonFilter.iteration cfg env fetch s) as [[] s1]; cbn in *.
    + destruct (IH s1) as (Hsub' & Hlog' & Hcalls'). repeat split.
      * intros x Hx. by apply Hsub', Hsub.
      * intros id Hid. rewrite Hlog' by (by apply Hsub). by apply Hlog.
      * intros Hd. by rewrite (Hcalls' Hd), (Hcalls Hd).
    + done.
Qed.

Lemma process_notification_dry_live cfg env n s1 s2 :
  core s1 = core s2 →
  ∃ r s1' s2',
    MastodonFilter.process_notification (set_dry_run true cfg) env n s1 = (r, s1')
    ∧ MastodonFilter.process_notification (set_dry_run false cfg) env n s2 = (r, s2')
    ∧ core s1' = core s2'
    ∧ client_calls s1' = client_calls s1.
Proof.
  intros Hcore. unfold MastodonFilter.process_notification.
  rewrite !bind_logger.
  set (t1 := set_log _ (set_log _ (set_log _ s1))).
  set (t2 := set_log _ (set_log _ (set_log _ s2))).
  assert (Ht : core t1 = core t2).
  { apply core_eq in Hcore. apply core_eq. exact Hcore. }
  destruct (analyze_dry_live cfg env (extract_text env (content n)) t1 t2 Ht)
    as (ra & u1 & u2 & Ha1 & Ha2 & Hu & Hcu).
  destruct ra as [d|e0].
  2: { rewrite (bind_raise _ _ _ _ _ Ha1), (bind_raise _ _ _ _ _ Ha2).
       do 3 eexists. do 2 (split; [reflexivity|]). done. }
  rewrite (bind_ok _ _ _ _ _ Ha1), (bind_ok _ _ _ _ _ Ha2).
  destruct (take_action_dry_live cfg env (account n) d (Some (status_id n)) u1 u2 Hu)
    as (r & v1 & v2 & Hta1 & Hta2 & Hv & Hcv).
  destruct r as [[]|e].
  - rewrite (bind_ok _ _ _ _ _ Hta1), (bind_ok _ _ _ _ _ Hta2). cbn.
    do 3 eexists. do 2 (split; [reflexivity|]). cbn. split.
    + apply core_eq in Hv as (? & ? & ? & ? & ? & ?). apply core_eq. cbn.
      repeat split; congruence.
    + by rewrite Hcv, Hcu.
  - rewrite (bind_raise _ _ _ _ _ Hta1), (bind_raise _ _ _ _ _ Hta2).
    do 3 eexists. do 2 (split; [reflexivity|]). split; [done|].
    by rewrite Hcv, Hcu.
Qed.

Lemma process_each_dry_live cfg env items : ∀ s1 s2,
  core s1 = core s2 →
  ∃ r s1' s2',
    MastodonFilter.process_each (set_dry_run true cfg) env items s1 = (r, s1')
    ∧ MastodonFilter.process_each (set_dry_run false cfg) env items s2 = (r, s2')
    ∧ core s1' = core s2'
    ∧ client_calls s1' = client_calls s1.
Proof.
  induction items as [|n items IH]; intros s1 s2 Hcore.
  - exists (Ok tt), s1, s2. done.
  - cbn [MastodonFilter.process_each].
    destruct (process_notification_dry_live cfg env n s1 s2 Hcore)
      as (r & t1 & t2 & H1 & H2 & Ht & Hc).
    destruct r as [[]|e].
    + rewrite (bind_ok _ _ _ _ _ H1), (bind_ok _ _ _ _ _ H2).
      destruct (IH t1 t2 Ht) as (r' & u1 & u2 & -> & -> & Hu & Hcu).
      exists r', u1, u2. repeat split; try done. by rewrite Hcu.
    + rewrite (bind_raise _ _ _ _ _ H1), (bind_raise _ _ _ _ _ H2).
      exists (Raise e), t1, t2. done.
Qed.

Lemma cycle_body_dry_live cfg env fetch s1 s2 :
  core s1 = core s2 →
  ∃ r s1' s2',
    MastodonFilter.cycle_body (set_dry_run true cfg) env fetch s1 = (r, s1')
    ∧ MastodonFilter.cycle_body (set_dry_run false cfg) env fetch s2 = (r, s2')
    ∧ core s1' = core s2'
    ∧ client_calls s1' = client_calls s1.
Proof.
  intros Hcore. unfold MastodonFilter.cycle_body.
  rewrite !bind_logger.
  destruct fetch as [l| |]; cbn.
  2,3: do 3 eexists; do 2 (split; [reflexivity|]); split; [|done];
       by apply core_set_log.
  unfold bind at 1 2. cbn. unfold NotificationProcessor.is_processed.
  cbn [processed_ids set_log].
  assert (Hp : processed_ids s1 = processed_ids s2)
    by (apply core_eq in Hcore; tauto).
  rewrite <- Hp.
  destruct (filter _ l) as [|n0 new] eqn:Hnew.
  - do 3 eexists. do 2 (split; [reflexivity|]). split; [|done].
    by do 2 apply core_set_log.
  - match goal with
    | |- context [MastodonFilter.process_each (set_dry_run true cfg) env ?items ?t1] =>
        match goal with
        | |- context [MastodonFilter.process_each (set_dry_run false cfg) env items ?t2] =>
            destruct (process_each_dry_live cfg env items t1 t2)
              as (r & u1 & u2 & H1 & H2 & Hu & Hc);
              [by do 2 apply core_set_log|]
        end
    end.
    exists r, u1, u2. done.
Qed.

Lemma iteration_dry_live cfg env fetch s1 s2 :
  core s1 = core s2 →
  ∃ b s1' s2',
    MastodonFilter.iteration (set_dry_run true cfg) env fetch s1 = (b, s1')
    ∧ MastodonFilter.iteration (set_dry_run false cfg) env fetch s2 = (b, s2')
    ∧ core s1' = core s2'
    ∧ client_calls s1' = client_calls s1.
Proof.
  intros Hcore. unfold MastodonFilter.iteration.
  destruct (cycle_body_dry_live cfg env fetch s1 s2 Hcore)
    as (r & t1 & t2 & H1 & H2 & Ht & Hc).
  destruct fetch as [l| |].
  3: { do 3 eexists. do 2 (split; [reflexivity|]). cbn. split; [|done].
       by do 2 apply core_set_log. }
  all: unfold try_except; rewrite H1, H2.
  all: change (poll_interval (set_dry_run true cfg)) with (poll_interval cfg).
  all: change (poll_interval (set_dry_run false cfg)) with (poll_interval cfg).
  all: destruct r as [[]|e]; cbn [snd].
  all: rewrite ?bind_logger; unfold time_sleep.
  all: destruct (sleep_outcome env (poll_interval cfg)) as [e1|]; run_m.
  all: do 3 eexists; do 2 (split; [reflexivity|]).
  all: cbn; (split; [|done]).
  all: apply core_eq in Ht as (? & ? & ? & ? & ? & ?); apply core_eq; cbn.
  all: repeat split; congruence.
Qed.

Lemma loop_dry_live cfg env fetches : ∀ s1 s2,
  core s1 = core s2 →
  core (MastodonFilter.loop (set_dry_run true cfg) env fetches s1)
    = core (MastodonFilter.loop (set_dry_run false cfg) env fetches s2).
Proof.
  induction fetches as [|fetch fetches IH]; intros s1 s2 Hcore; [done|].
  cbn [MastodonFilter.loop].
  destruct (iteration_dry_live cfg env fetch s1 s2 Hcore)
    as (b & t1 & t2 & -> & -> & Ht & _).
  destruct b; [by apply IH|done].
Qed.

(** *** What a cycle leaves in the log, the dedup store and the ledger *)

Lemma run_ops_cons o ops tr :
  InfractionTracker.run_ops (o :: ops) tr
    = InfractionTracker.run_ops ops (InfractionTracker.apply_op o tr).
Proof. reflexivity. Qed.

Lemma run_ops_app ops1 ops2 tr :
  InfractionTracker.run_ops (ops1 ++ ops2) tr
    = InfractionTracker.run_ops ops2 (InfractionTracker.run_ops ops1 tr).
Proof. apply foldl_app. Qed.

Lemma processed_order_app l1 l2 :
  processed_order (l1 ++ l2) = processed_order l1 ++ processed_order l2.
Proof. apply omap_app. Qed.

Lemma processed_order_quiet l : quiet l → processed_order l = [].
Proof.
  intros Hq. induction l as [|ev l IH]; [done|].
  assert (quiet l) as Hl.
  { intros id. specialize (Hq id). by apply Forall_cons in Hq as [_ ?]. }
  destruct ev; cbn; try (by apply IH).
  specialize (Hq id). apply Forall_cons in Hq as [Hev _]. cbn in Hev.
  by rewrite bool_decide_eq_true_2 in Hev.
Qed.

(** The ledger after [take_action]: as it was, or with one more
    infraction. *)
Lemma take_action_adds cfg env author d sid s :
  ∃ ops,
    tracker (snd (ActionHandler.take_action cfg env author d sid s))
      = InfractionTracker.run_ops ops (tracker s)
    ∧ forallb is_add ops = true.
Proof.
  unfold ActionHandler.take_action, ActionHandler._is_new_account,
    ActionHandler._execute_action, ActionHandler._send_warning.
  run_m. split_cases.
  all: first
    [ by exists []
    | eexists [InfractionTracker.OpAdd _ _ _ _]; split; reflexivity ].
Qed.

(** What one [process_notification] does to the dedup store, the log and
    the ledger. *)
Lemma process_notification_trace cfg env n s :
  ∃ r s' ops,
    MastodonFilter.process_notification cfg env n s = (r, s')
    ∧ processed_order (log s') = processed_order (log s) ++ [notif_id n]
    ∧ (r = Ok tt
       ∧ processed_ids s' = {[notif_id n]} ∪ processed_ids s
       ∧ processed_file s' = processed_file s ++ [notif_id n]
       ∨ (∃ e, r = Raise e ∧ item_exception cfg env e)
         ∧ processed_ids s' = processed_ids s
         ∧ processed_file s' = processed_file s)
    ∧ tracker s' = InfractionTracker.run_ops ops (tracker s)
    ∧ forallb is_add ops = true.
Proof.
  unfold MastodonFilter.process_notification. rewrite !bind_logger.
  set (s3 := set_log _ _).
  destruct (analyze_frame cfg env (extract_text env (content n)) s3)
    as (ra & s4 & Ha & Ht4 & Hp4 & Hf4 & _ & _ & (l4 & Hl4 & Hq4) & Hra).
  assert (Hord4 : processed_order (log s4)
            = processed_order (log s) ++ [notif_id n]).
  { rewrite Hl4. subst s3. cbn [log set_log].
    rewrite !processed_order_app, (processed_order_quiet l4 Hq4).
    cbn. by rewrite !app_nil_r. }
  destruct ra as [d|e].
  2: { rewrite (bind_raise _ _ _ _ _ Ha).
       exists (Raise e), s4, []. split; [reflexivity|].
       split; [exact Hord4|]. split; [|by rewrite Ht4].
       right. split; [|done]. exists e. split; [done|]. by right. }
  rewrite (bind_ok _ _ _ _ _ Ha).
  destruct (take_action_frame cfg env (account n) d (Some (status_id n)) s4)
    as (r & s5 & Hta & Hp5 & Hf5 & _ & _ & (l5 & Hl5 & Hq5) & Hr & _).
  destruct (take_action_adds cfg env (account n) d (Some (status_id n)) s4)
    as (ops & Hops & Hadd).
  rewrite Hta in Hops. cbn [snd] in Hops. rewrite Ht4 in Hops.
  assert (Hord : processed_order (log s5)
            = processed_order (log s) ++ [notif_id n]).
  { rewrite Hl5, processed_order_app, (processed_order_quiet l5 Hq5), Hord4.
    by rewrite app_nil_r. }
  destruct Hr as [->|(-> & Hsw & _)].
  - rewrite (bind_ok _ _ _ _ _ Hta). cbn.
    do 3 eexists. split; [reflexivity|]. cbn.
    split; [exact Hord|]. split; [|split; [exact Hops|exact Hadd]].
    left. by rewrite Hp5, Hp4, Hf5, Hf4.
  - rewrite (bind_raise _ _ _ _ _ Hta).
    do 3 eexists. split; [reflexivity|].
    split; [exact Hord|]. split; [|split; [exact Hops|exact Hadd]].
    right. split; [|by rewrite Hp5, Hp4, Hf5, Hf4].
    eexists. split; [done|]. by left.
Qed.

Lemma process_each_trace cfg env items : ∀ s,
  ∃ r s' done_ ops,
    MastodonFilter.process_each cfg env items s = (r, s')
    ∧ processed_order (log s') = processed_order (log s) ++ done_
    ∧ done_ `prefix_of` (notif_id <$> items)
    ∧ (r = Ok tt → done_ = notif_id <$> items)
    ∧ (send_warnings cfg = false → sleep_outcome env (retry_delay cfg) = None →
       r = Ok tt)
    ∧ (∃ marked, marked `sublist_of` done_
                 ∧ processed_file s' = processed_file s ++ marked
                 ∧ processed_ids s' = list_to_set marked ∪ processed_ids s)
    ∧ tracker s' = InfractionTracker.run_ops ops (tracker s)
    ∧ forallb is_add ops = true.
Proof.
  induction items as [|n items IH]; intros s.
  - exists (Ok tt), s, [], []. cbn. rewrite app_nil_r.
    repeat split; try done. exists []. rewrite app_nil_r.
    repeat split; [done|]. by rewrite list_to_set_nil, (left_id_L ∅ (∪)).
  - cbn [MastodonFilter.process_each].
    destruct (process_notification_trace cfg env n s)
      as (r & s1 & ops1 & Hpn & Hord & Hr & Htr & Hadd).
    destruct Hr as [(-> & Hp & Hf)|((e & -> & He) & Hp & Hf)].
    + rewrite (bind_ok _ _ _ _ _ Hpn).
      destruct (IH s1)
        as (r' & s' & done_ & ops & -> & Hord' & Hpre & Hall & Hok
            & (marked & Hsub & Hf' & Hp') & Htr' & Hadd').
      exists r', s', (notif_id n :: done_), (ops1 ++ ops).
      split; [done|]. split.
      { rewrite Hord', Hord, <- app_assoc. done. }
      split; [by apply prefix_cons|].
      split; [intros Hr'; cbn; by rewrite (Hall Hr')|].
      split; [exact Hok|]. split.
      { exists (notif_id n :: marked). split; [by apply sublist_skip|].
        split; [by rewrite Hf', Hf, <- app_assoc|].
        rewrite Hp', Hp, list_to_set_cons. by rewrite (assoc_L (∪)), (comm_L (∪) _ {[_]}). }
      split; [by rewrite run_ops_app, <- Htr|].
      by rewrite forallb_app, Hadd, Hadd'.
    + rewrite (bind_raise _ _ _ _ _ Hpn).
      exists (Raise e), s1, [notif_id n], ops1.
      split; [done|]. split; [exact Hord|].
      split; [by apply prefix_cons, prefix_nil|].
      split; [discriminate|].
      split; [intros Hsw Hsl; by destruct (item_exception_none cfg env e Hsw Hsl)|].
      split.
      { exists []. split; [apply sublist_nil_l|]. rewrite app_nil_r.
        split; [done|]. by rewrite Hp, list_to_set_nil, (left_id_L ∅ (∪)). }
      done.
Qed.

(** Where a loop over the items stops when an exception leaves it: at the
    first item whose processing raises. The items before it are marked
    processed, that item is not, and the items after it are not started. *)
Lemma process_each_raise cfg env items : ∀ s e s1,
  MastodonFilter.process_each cfg env items s = (Raise e, s1) →
  item_exception cfg env e
  ∧ ∃ before n after,
      items = before ++ n :: after
      ∧ processed_order (log s1)
          = processed_order (log s) ++ (notif_id <$> before) ++ [notif_id n]
      ∧ processed_ids s1 = list_to_set (notif_id <$> before) ∪ processed_ids s
      ∧ processed_file s1 = processed_file s ++ (notif_id <$> before).
Proof.
  induction items as [|n items IH]; intros s e s1; [discriminate|].
  cbn [MastodonFilter.process_each].
  destruct (process_notification_trace cfg env n s)
    as (r & s0 & ops1 & Hpn & Hord & Hr & _).
  destruct Hr as [(-> & Hp & Hf)|((e0 & -> & He) & Hp & Hf)].
  - rewrite (bind_ok _ _ _ _ _ Hpn). intros Hpe.
    destruct (IH s0 e s1 Hpe)
      as (Hex & before & m & after & -> & Hord' & Hp' & Hf').
    split; [exact Hex|]. exists (n :: before), m, after.
    split; [done|]. cbn [fmap list_fmap].
    split; [by rewrite Hord', Hord, <- !app_assoc|].
    split; [|by rewrite Hf', Hf, <- !app_assoc].
    rewrite Hp', Hp, list_to_set_cons.
    by rewrite (assoc_L (∪)), (comm_L (∪) _ {[_]}).
  - rewrite (bind_raise _ _ _ _ _ Hpn). intros [= <- <-].
    split; [exact He|]. exists [], n, items.
    split; [done|]. cbn. split; [exact Hord|].
    split; [by rewrite Hp, (left_id_L ∅ (∪))|by rewrite Hf, app_nil_r].
Qed.

(** The cycle, with its filter read on the state the cycle starts from. *)
Lemma cycle_body_eq cfg env batch s :
  MastodonFilter.cycle_body cfg env (FetchOk batch) s
    = let s0 := set_log (log s ++ [LogChecking]) s in
      let new := filter (λ n, notif_id n ∉ processed_ids s) batch in
      match new with
      | [] => logger LogNoNew s0
      | _ => MastodonFilter.process_each cfg env (reverse new)
               (set_log (log s0 ++ [LogFound (length new)]) s0)
      end.
Proof.
  unfold MastodonFilter.cycle_body. rewrite bind_logger.
  unfold bind at 1, ret at 1. unfold bind at 1.
  set (s0 := set_log _ s).
  assert (Hfilter : filter (λ n, ¬ NotificationProcessor.is_processed (notif_id n) s0)
                      batch
                    = filter (λ n, notif_id n ∉ processed_ids s) batch).
  { apply list_filter_iff. intros n.
    unfold NotificationProcessor.is_processed. subst s0. cbn.
    by rewrite bool_decide_spec. }
  rewrite Hfilter. clear Hfilter. cbn zeta.
  generalize (filter (λ n, notif_id n ∉ processed_ids s) batch).
  intros new. destruct new; reflexivity.
Qed.

(** * The claims *)

Ltac not_in :=
  match goal with
  | |- ?x ∉ ?l => apply (bool_decide_eq_false_1 (x ∈ l)); vm_compute; reflexivity
  end.

Lemma troll_not_allowlisted cfg :
  allowlist cfg = allowlist default_config →
  author_acct established_author ∉ allowlist cfg.
Proof. intros ->. not_in. Qed.

Lemma alt_not_allowlisted cfg :
  allowlist cfg = allowlist default_config →
  author_acct new_author ∉ allowlist cfg.
Proof. intros ->. not_in. Qed.

(** C1 (what the code does in place of it). Take a notification that
    passes the gates and does not take the instant block of a new account,
    with [send_warnings] set, a [status_id], and an author that is not a
    new account under [new_account_no_warning]: the claim expects a warning
    to be delivered and the mute or block to run whatever happens to the
    warning. In the code the call [self._send_warning(...)] raises
    [AttributeError] (the class has no such method) after the infraction
    was recorded, [take_action] ends with that exception, and no call is
    made on the client: [_execute_action] does not run. *)
Theorem warning_raises_before_action cfg env author d sid s b :
  is_negative (classification d) = true →
  below_confidence_floor (confidence d) = false →
  author_acct author ∉ allowlist cfg →
  fst (ActionHandler._is_new_account cfg env author s) = Ok b →
  b && new_account_instant_block cfg = false →
  send_warnings cfg = true →
  truthy sid = true →
  b && new_account_no_warning cfg = false →
  ∃ s',
    ActionHandler.take_action cfg env author d sid s
      = (Raise (AttributeError "_send_warning"), s')
    ∧ client_calls s' = client_calls s
    ∧ InfractionTracker.get_count (author_acct author) (tracker s')
        = InfractionTracker.get_count (author_acct author) (tracker s) + 1.
Proof.
  intros Hneg Hconf Hallow Hnew Hinst Hsw Hsid Hnw.
  destruct (take_action_ledger_path cfg env author d sid s b
              Hneg Hconf Hallow Hnew Hinst)
    as (now & r & s' & Hta & Htr & Hcase).
  rewrite Hsw, Hsid, Hnw in Hcase. cbn in Hcase. destruct Hcase as [-> Hcalls].
  exists s'. split; [exact Hta|]. split; [exact Hcalls|].
  cbn in Htr. rewrite Htr. apply TrackerFacts.get_count_add_eq.
Qed.

Lemma warning_raises_before_action_witness :
  ∃ s',
    ActionHandler.take_action live_config hostile_env established_author
        (decision_of "SEVERELY_NEGATIVE" 0.95) (Some "s1") initial_state
      = (Raise (AttributeError "_send_warning"), s')
    ∧ client_calls s' = client_calls initial_state
    ∧ InfractionTracker.get_count (author_acct established_author) (tracker s')
        = InfractionTracker.get_count (author_acct established_author)
            (tracker initial_state) + 1.
Proof.
  apply (warning_raises_before_action live_config hostile_env established_author
           (decision_of "SEVERELY_NEGATIVE" 0.95) (Some "s1") initial_state false);
    try reflexivity.
  apply troll_not_allowlisted. reflexivity.
Defined.

(** C2 (what the code does in place of it). The [try] of [run] is around
    the whole cycle, not around each item, and [process_notification]
    marks a notification processed only after [take_action] returned.
    When the processing of an item raises (which it does on the
    [AttributeError] of the missing [_send_warning], or on an exception
    of [time.sleep] between two attempts of [analyze]), the exception
    leaves the cycle: the unseen mentions that came before that item, in
    the order of the loop, are marked processed, that item is started but
    not marked, and the rest of the batch is neither started nor marked.
    The handler of the loop then logs the exception; the loop goes on to
    its next cycle when its own sleep is accepted. *)
Theorem failing_item_aborts_the_batch cfg env batch s e s1 :
  MastodonFilter.cycle_body cfg env (FetchOk batch) s = (Raise e, s1) →
  item_exception cfg env e
  ∧ (∃ before n after,
       reverse (filter (λ m, notif_id m ∉ processed_ids s) batch)
         = before ++ n :: after
       ∧ processed_order (log s1)
           = processed_order (log s) ++ (notif_id <$> before) ++ [notif_id n]
       ∧ processed_ids s1 = list_to_set (notif_id <$> before) ∪ processed_ids s
       ∧ processed_file s1 = processed_file s ++ (notif_id <$> before))
  ∧ (let s2 := snd (MastodonFilter.iteration cfg env (FetchOk batch) s) in
     LogMainLoopError e ∈ log s2
     ∧ processed_ids s2 = processed_ids s1
     ∧ processed_order (log s2) = processed_order (log s1))
  ∧ (sleep_outcome env (poll_interval cfg) = None →
     fst (MastodonFilter.iteration cfg env (FetchOk batch) s) = true).
Proof.
  intros Hcb. pose proof Hcb as Hcb'. rewrite cycle_body_eq in Hcb'. cbn zeta in Hcb'.
  destruct (filter _ batch) as [|n0 new] eqn:Hnew; [discriminate|].
  rewrite <- Hnew in Hcb'.
  destruct (process_each_raise _ _ _ _ _ _ Hcb')
    as (Hex & before & n & after & Hitems & Hord & Hp & Hf).
  split; [exact Hex|]. split.
  { exists before, n, after. rewrite Hnew in Hitems. split; [exact Hitems|].
    change (log (set_log ?l _)) with l in Hord.
    change (log (set_log ?l _)) with l in Hord.
    rewrite !processed_order_app in Hord. cbn [processed_order omap] in Hord.
    rewrite !app_nil_r in Hord. done. }
  unfold MastodonFilter.iteration, try_except. rewrite Hcb.
  rewrite !bind_logger. unfold time_sleep.
  destruct (sleep_outcome env (poll_interval cfg)) as [e1|]; cbn.
  - split; [|discriminate]. rewrite !processed_order_app. cbn.
    rewrite !app_nil_r. split; [|done].
    apply elem_of_app. left. apply elem_of_app. right. apply list_elem_of_here.
  - split; [|done]. rewrite !processed_order_app. cbn.
    rewrite !app_nil_r. split; [|done].
    apply elem_of_app. left. apply elem_of_app. right. apply list_elem_of_here.
Qed.

(** The failing input of C2: the shipped configuration, and a fetch of two
    mentions by a hostile established author. The loop takes the mention
    "2" first; its processing raises, so that "2" is started and not
    marked, and "1" is not started. *)
Lemma failing_item_aborts_the_batch_witness :
  let s1 := snd (MastodonFilter.cycle_body default_config hostile_env
                   (FetchOk two_mentions) initial_state) in
  let s2 := snd (MastodonFilter.iteration default_config hostile_env
                   (FetchOk two_mentions) initial_state) in
  processed_order (log s1) = ["2"]
  ∧ processed_ids s1 = ∅
  ∧ item_exception default_config hostile_env (AttributeError "_send_warning")
  ∧ LogMainLoopError (AttributeError "_send_warning") ∈ log s2
  ∧ processed_ids s2 = processed_ids s1
  ∧ processed_order (log s2) = processed_order (log s1).
Proof.
  cbn zeta.
  destruct (failing_item_aborts_the_batch default_config hostile_env two_mentions
              initial_state (AttributeError "_send_warning")
              (snd (MastodonFilter.cycle_body default_config hostile_env
                      (FetchOk two_mentions) initial_state)))
    as (Hex & _ & Hloop & _).
  - vm_compute. reflexivity.
  - split; [vm_compute; reflexivity|]. split; [vm_compute; reflexivity|].
    split; [exact Hex|]. exact Hloop.
Defined.

(** The retry storm that follows. Over three cycles whose fetch returns
    the same two mentions, the same notification is processed three
    times, three infractions are recorded for it, nothing is ever marked
    processed, the other mention is never processed, and no call is made
    on the client. *)
Lemma failed_item_is_retried_every_cycle :
  let s3 := MastodonFilter.loop default_config hostile_env
              [FetchOk two_mentions; FetchOk two_mentions; FetchOk two_mentions]
              initial_state in
  times_processed "2" s3 = 3%nat
  ∧ times_processed "1" s3 = 0%nat
  ∧ processed_ids s3 = ∅
  ∧ InfractionTracker.get_count "troll@example.org" (tracker s3) = 3
  ∧ client_calls s3 = [].
Proof.
  cbn zeta. repeat split; vm_compute; reflexivity.
Qed.

(** The two lines a low confidence can leave in the log. *)
Lemma low_confidence_only_logs cfg env author d sid s :
  below_confidence_floor (confidence d) = true →
  ∃ ev,
    ActionHandler.take_action cfg env author d sid s
      = (Ok tt, set_log (log s ++ [ev]) s)
    ∧ (ev = LogNoAction (author_acct author)
       ∨ ev = LogLowConfidence (confidence d) (author_acct author)).
Proof.
  intros Hlow. unfold ActionHandler.take_action. rewrite Hlow.
  case_bool_decide; eexists; (split; [reflexivity|]); auto.
Qed.

(** C3. Whatever the author, the classification, the configuration and
    the ledger, a confidence below 0.6 makes [take_action] return having
    only written one line to the log (no action needed, or the low
    confidence skip): the ledger is unchanged ([add_infraction] is not
    called), no call is made on the client and no warning is attempted. *)
Theorem low_confidence_decides_none cfg env author d sid s :
  below_confidence_floor (confidence d) = true →
  ∃ ev s',
    ActionHandler.take_action cfg env author d sid s = (Ok tt, s')
    ∧ s' = set_log (log s ++ [ev]) s
    ∧ (ev = LogNoAction (author_acct author)
       ∨ ev = LogLowConfidence (confidence d) (author_acct author))
    ∧ tracker s' = tracker s
    ∧ client_calls s' = client_calls s.
Proof.
  intros Hlow.
  destruct (low_confidence_only_logs cfg env author d sid s Hlow)
    as (ev & Hta & Hev).
  exists ev, (set_log (log s ++ [ev]) s). by rewrite Hta.
Qed.

Lemma low_confidence_decides_none_witness :
  ∃ ev s',
    ActionHandler.take_action live_config hostile_env established_author
        (decision_of "SEVERELY_NEGATIVE" 0.59) (Some "s1") initial_state
      = (Ok tt, s')
    ∧ s' = set_log (log initial_state ++ [ev]) initial_state
    ∧ (ev = LogNoAction (author_acct established_author)
       ∨ ev = LogLowConfidence
                (confidence (decision_of "SEVERELY_NEGATIVE" 0.59))
                (author_acct established_author))
    ∧ tracker s' = tracker initial_state
    ∧ client_calls s' = client_calls initial_state.
Proof.
  apply (low_confidence_decides_none live_config hostile_env established_author
           (decision_of "SEVERELY_NEGATIVE" 0.59) (Some "s1") initial_state).
  reflexivity.
Defined.

(** C4. For an author whose handle is in the allowlist, whatever the
    classification, the confidence and the ledger, [take_action] returns
    having only written one line to the log: the ledger is unchanged and
    no call is made on the client. *)
Theorem allowlisted_decides_none cfg env author d sid s :
  author_acct author ∈ allowlist cfg →
  ∃ ev s',
    ActionHandler.take_action cfg env author d sid s = (Ok tt, s')
    ∧ s' = set_log (log s ++ [ev]) s
    ∧ ev ∈ [LogNoAction (author_acct author);
            LogLowConfidence (confidence d) (author_acct author);
            LogAllowlisted (author_acct author)]
    ∧ tracker s' = tracker s
    ∧ client_calls s' = client_calls s.
Proof.
  intros Hin. unfold ActionHandler.take_action.
  rewrite (bool_decide_eq_true_2 _ Hin).
  case_bool_decide; [|destruct (below_confidence_floor _)];
    do 2 eexists; (split; [reflexivity|]); (split; [reflexivity|]);
    (split; [|done]).
  - apply list_elem_of_here.
  - apply list_elem_of_further, list_elem_of_here.
  - do 2 apply list_elem_of_further. apply list_elem_of_here.
Qed.

Lemma allowlisted_decides_none_witness :
  ∃ ev s',
    ActionHandler.take_action live_config hostile_env allowlisted_author
        (decision_of "SEVERELY_NEGATIVE" 0.95) (Some "s1") initial_state
      = (Ok tt, s')
    ∧ s' = set_log (log initial_state ++ [ev]) initial_state
    ∧ ev ∈ [LogNoAction (author_acct allowlisted_author);
            LogLowConfidence (confidence (decision_of "SEVERELY_NEGATIVE" 0.95))
              (author_acct allowlisted_author);
            LogAllowlisted (author_acct allowlisted_author)]
    ∧ tracker s' = tracker initial_state
    ∧ client_calls s' = client_calls initial_state.
Proof.
  apply (allowlisted_decides_none live_config hostile_env allowlisted_author
           (decision_of "SEVERELY_NEGATIVE" 0.95) (Some "s1") initial_state).
  apply list_elem_of_here.
Defined.

Lemma is_new_account_new cfg env author s t :
  created_at author = Some t →
  (clock env (clock_reads s) - t) `div` microseconds_per_day ≤ new_account_days cfg →
  ActionHandler._is_new_account cfg env author s
    = (Ok true,
       set_log (log s ++ [LogAccountNew (author_acct author)
                            ((clock env (clock_reads s) - t) `div` microseconds_per_day)])
               (set_clock_reads (S (clock_reads s)) s)).
Proof.
  intros Hc Hage. unfold ActionHandler._is_new_account. rewrite Hc. run_m.
  rewrite (bool_decide_eq_true_2 _ Hage). reflexivity.
Qed.

(** The instant block itself, which the code reaches when the value
    under ['created_at'] is a string the parser reads. For an author that
    is not allowlisted and whose account age, in whole days, is at most
    [new_account_days], with
    [new_account_instant_block] set, a classification [MILDLY_NEGATIVE] or
    [SEVERELY_NEGATIVE] and a confidence not below 0.6 (so for every
    confidence of at least 0.6, by [at_least_floor_not_below]),
    [take_action] takes the instant block: it logs the hostile new
    account, calls [account_block] on the author (in a dry run it logs
    that it would have), returns, and leaves the ledger as it was, so that
    no infraction is recorded. *)
Lemma instant_block_of_parsed_date cfg env author d sid s t :
  is_negative (classification d) = true →
  below_confidence_floor (confidence d) = false →
  author_acct author ∉ allowlist cfg →
  created_at author = Some t →
  (clock env (clock_reads s) - t) `div` microseconds_per_day ≤ new_account_days cfg →
  new_account_instant_block cfg = true →
  ∃ s',
    ActionHandler.take_action cfg env author d sid s = (Ok tt, s')
    ∧ tracker s' = tracker s
    ∧ client_calls s'
        = client_calls s ++
            (if dry_run cfg then [] else [account_block (author_id author)])
    ∧ LogNewHostile (author_acct author) ∈ log s'
    ∧ (dry_run cfg = true → LogDryRunInstantBlock (author_acct author) ∈ log s').
Proof.
  intros Hneg Hconf Hallow Hc Hage Hinst.
  unfold ActionHandler.take_action.
  rewrite (is_negative_not_neutral _ Hneg), Hconf, (bool_decide_eq_false_2 _ Hallow).
  rewrite (bind_ok _ _ _ _ _ (is_new_account_new cfg env author s t Hc Hage)).
  rewrite Hinst, Hneg. cbn [andb].
  destruct (dry_run cfg) eqn:Hdry; run_m.
  - eexists; split; [reflexivity|]. cbn. rewrite app_nil_r.
    repeat split; set_solver.
  - destruct (client_raises env _ _); cbn;
      (eexists; split; [reflexivity|]); cbn; repeat split; try set_solver; discriminate.
Qed.

(** C5 (what the code does in place of it). The Mastodon client delivers
    the creation time of an account as a [datetime], and
    [_is_new_account] hands it to [date_parser.parse], which raises
    [TypeError] on it; the handler logs the error and answers that the
    account is not new. So whatever its age, an account the client
    delivers never takes the instant block: with a classification
    [MILDLY_NEGATIVE] or [SEVERELY_NEGATIVE], a confidence not below 0.6
    and a handle that is not allowlisted, [take_action] records an
    infraction and goes on as for an established account (the warning,
    which raises, or else the action of the escalation table at the new
    count). *)
Theorem delivered_account_is_never_new cfg env id acct t d sid s :
  is_negative (classification d) = true →
  below_confidence_floor (confidence d) = false →
  acct ∉ allowlist cfg →
  ActionHandler._is_new_account cfg env
      (account_dict id acct (CreatedDatetime t)) s
    = (Ok false, set_log (log s ++ [LogAgeError]) s)
  ∧ ∃ now r s',
      let n := InfractionTracker.get_count acct (tracker s) + 1 in
      let action := ActionHandler._determine_action cfg (classification d) n in
      ActionHandler.take_action cfg env
          (account_dict id acct (CreatedDatetime t)) d sid s = (r, s')
      ∧ tracker s'
          = InfractionTracker.add_infraction now acct (classification d)
              (reason d) (tracker s)
      ∧ InfractionTracker.get_count acct (tracker s') = n
      ∧ (if send_warnings cfg && truthy sid
         then r = Raise (AttributeError "_send_warning")
              ∧ client_calls s' = client_calls s
         else r = Ok tt
              ∧ client_calls s'
                  = client_calls s ++
                      (if dry_run cfg then [] else calls_of action id)).
Proof.
  intros Hneg Hconf Hallow. split; [reflexivity|].
  destruct (take_action_ledger_path cfg env
              (account_dict id acct (CreatedDatetime t)) d sid s false
              Hneg Hconf Hallow eq_refl eq_refl)
    as (now & r & s' & Hta & Htr & Hcase).
  exists now, r, s'. cbn zeta in *. cbn [account_dict author_acct author_id] in *.
  split; [exact Hta|]. split; [exact Htr|].
  split; [rewrite Htr; apply TrackerFacts.get_count_add_eq|].
  rewrite andb_true_r in Hcase.
  destruct (send_warnings cfg && truthy sid); [exact Hcase|].
  destruct Hcase as (Hr & Hcalls & _). done.
Qed.

(** The failing input of C5: an account created 5 days ago, as the client
    delivers it, with [new_account_days = 30] and
    [new_account_instant_block] set, a [MILDLY_NEGATIVE] decision of
    confidence 0.8, in live mode with [send_warnings] off. The account is
    muted, not blocked, and its count is 1, not 0. *)
Lemma delivered_account_is_never_new_witness :
  (clock hostile_env 0 - day 995) `div` microseconds_per_day = 5
  ∧ new_account_days no_warning_config = 30
  ∧ new_account_instant_block no_warning_config = true
  ∧ ∃ s',
      ActionHandler.take_action no_warning_config hostile_env
          (account_dict "77" "alt@example.org" (CreatedDatetime (day 995)))
          (decision_of "MILDLY_NEGATIVE" 0.8) (Some "s1") initial_state
        = (Ok tt, s')
      ∧ client_calls s' = [account_mute "77"]
      ∧ InfractionTracker.get_count "alt@example.org" (tracker s') = 1.
Proof.
  do 3 (split; [reflexivity|]).
  destruct (delivered_account_is_never_new no_warning_config hostile_env
              "77" "alt@example.org" (day 995)
              (decision_of "MILDLY_NEGATIVE" 0.8) (Some "s1") initial_state)
    as (_ & now & r & s' & Hta & _ & Hn & Hcase); try reflexivity.
  - apply alt_not_allowlisted. reflexivity.
  - cbn in Hcase. destruct Hcase as [-> Hcalls].
    exists s'. split; [exact Hta|]. split; [exact Hcalls|exact Hn].
Defined.

(** The escalation where no warning is to be sent. For an established author (not a new account) that is not
    allowlisted, with a classification [MILDLY_NEGATIVE] or
    [SEVERELY_NEGATIVE] and a confidence not below 0.6 (so for every
    confidence of at least 0.6), [take_action] first records one
    infraction, and the action is [_determine_action] at the count read
    after it, which is the previous count plus one: for
    [SEVERELY_NEGATIVE], [block] when the count reaches [block_threshold]
    and [mute] otherwise; for [MILDLY_NEGATIVE], [block] when the count
    reaches [block_threshold], else [mute] when it reaches
    [mute_threshold], else [none]. When no warning is to be sent,
    [take_action] returns and the action is logged and, in live mode,
    called on the client. With [mute_threshold = 1] and
    [block_threshold = 3] the counts 1, 2, 3 give [mute], [mute], [block],
    and three [MILDLY_NEGATIVE] events of confidence 0.9 from one
    established author make the calls mute, mute, block and leave the
    count at 3. *)
Lemma escalation_without_warning :
  (∀ cfg env author d sid s,
     is_negative (classification d) = true →
     below_confidence_floor (confidence d) = false →
     author_acct author ∉ allowlist cfg →
     fst (ActionHandler._is_new_account cfg env author s) = Ok false →
     ∃ now r s',
       let acct := author_acct author in
       let n := InfractionTracker.get_count acct (tracker s) + 1 in
       let action := ActionHandler._determine_action cfg (classification d) n in
       ActionHandler.take_action cfg env author d sid s = (r, s')
       ∧ tracker s'
           = InfractionTracker.add_infraction now acct (classification d)
               (reason d) (tracker s)
       ∧ InfractionTracker.get_count acct (tracker s') = n
       ∧ (classification d = "SEVERELY_NEGATIVE" →
            action = if bool_decide (block_threshold cfg ≤ n) then block else mute)
       ∧ (classification d = "MILDLY_NEGATIVE" →
            action = if bool_decide (block_threshold cfg ≤ n) then block
                     else if bool_decide (mute_threshold cfg ≤ n) then mute
                     else none)
       ∧ (send_warnings cfg && truthy sid = false →
            r = Ok tt
            ∧ client_calls s'
                = client_calls s ++
                    (if dry_run cfg then []
                     else calls_of action (author_id author))
            ∧ (if bool_decide (action = none)
               then LogTracking n acct ∈ log s'
               else LogActioning action acct n ∈ log s')))
  ∧ (∀ cfg, mute_threshold cfg = 1 → block_threshold cfg = 3 →
       ActionHandler._determine_action cfg "MILDLY_NEGATIVE" <$> [1; 2; 3]
         = [mute; mute; block])
  ∧ client_calls (three_mild_events no_warning_config (Some "s1"))
      = [account_mute "42"; account_mute "42"; account_block "42"]
  ∧ InfractionTracker.get_count "troll@example.org"
      (tracker (three_mild_events no_warning_config (Some "s1"))) = 3
  ∧ client_calls (three_mild_events live_config None)
      = [account_mute "42"; account_mute "42"; account_block "42"]
  ∧ log (three_mild_events default_config None)
      = [LogActioning mute "troll@example.org" 1;
         LogDryRunWould mute "troll@example.org";
         LogActioning mute "troll@example.org" 2;
         LogDryRunWould mute "troll@example.org";
         LogActioning block "troll@example.org" 3;
         LogDryRunWould block "troll@example.org"].
Proof.
  split; [|split; [|split; [|split; [|split]]]].
  - intros cfg env author d sid s Hneg Hconf Hallow Hnew.
    destruct (take_action_ledger_path cfg env author d sid s false
                Hneg Hconf Hallow Hnew eq_refl)
      as (now & r & s' & Hta & Htr & Hcase).
    exists now, r, s'. cbn zeta in *.
    split; [exact Hta|]. split; [exact Htr|].
    split; [rewrite Htr; apply TrackerFacts.get_count_add_eq|].
    split; [intros ->; apply determine_action_severe|].
    split; [intros ->; apply determine_action_mild|].
    intros Hw. rewrite Hw in Hcase. exact Hcase.
  - intros cfg Hm Hb. cbn. rewrite !determine_action_mild, Hm, Hb. reflexivity.
  - vm_compute. reflexivity.
  - vm_compute. reflexivity.
  - vm_compute. reflexivity.
  - vm_compute. reflexivity.
Qed.

(** The path of [take_action] that ends at the warning. *)
Lemma take_action_warning_path cfg env author d sid s :
  is_negative (classification d) = true →
  below_confidence_floor (confidence d) = false →
  author_acct author ∉ allowlist cfg →
  fst (ActionHandler._is_new_account cfg env author s) = Ok false →
  send_warnings cfg = true →
  truthy sid = true →
  ∃ now s',
    ActionHandler.take_action cfg env author d sid s
      = (Raise (AttributeError "_send_warning"), s')
    ∧ tracker s'
        = InfractionTracker.add_infraction now (author_acct author)
            (classification d) (reason d) (tracker s)
    ∧ client_calls s' = client_calls s
    ∧ (log s' = log s ∨ log s' = log s ++ [LogAgeError]).
Proof.
  intros Hneg Hconf Hallow Hnew Hsw Hsid.
  unfold ActionHandler.take_action.
  rewrite (is_negative_not_neutral _ Hneg), Hconf, (bool_decide_eq_false_2 _ Hallow).
  rewrite Hneg, Hsw, Hsid.
  revert Hnew. unfold ActionHandler._is_new_account, ActionHandler._send_warning.
  run_m. destruct (created_at author) as [created|]; cbn.
  - case_bool_decide; cbn; [discriminate|]. intros _.
    do 2 eexists. split; [reflexivity|]. cbn. repeat split. by left.
  - intros _. do 2 eexists. split; [reflexivity|]. cbn. repeat split. by right.
Qed.

(** C6 (what the code does in place of it). [process_notification], the
    only caller of [take_action], passes the id of the status, and the
    shipped configuration has [send_warnings] set. There, for an
    established author that is not allowlisted, with a classification
    [MILDLY_NEGATIVE] or [SEVERELY_NEGATIVE] and a confidence not below
    0.6, every call of [take_action] records the infraction and then ends
    on the [AttributeError] of the missing [_send_warning], before
    [_determine_action] and [_execute_action]: over any number [k] of
    such events the count goes up by [k] while no call is made on the
    client and no action is logged, at any count. *)
Theorem escalation_never_reaches_an_action cfg env author d sid k :
  is_negative (classification d) = true →
  below_confidence_floor (confidence d) = false →
  author_acct author ∉ allowlist cfg →
  (∀ s0, fst (ActionHandler._is_new_account cfg env author s0) = Ok false) →
  send_warnings cfg = true →
  truthy sid = true →
  ∀ s,
    let s' := take_actions cfg env author d sid k s in
    InfractionTracker.get_count (author_acct author) (tracker s')
      = InfractionTracker.get_count (author_acct author) (tracker s) + Z.of_nat k
    ∧ client_calls s' = client_calls s
    ∧ (∃ l, log s' = log s ++ l ∧ Forall (λ ev, ev = LogAgeError) l)
    ∧ fst (ActionHandler.take_action cfg env author d sid s)
        = Raise (AttributeError "_send_warning").
Proof.
  intros Hneg Hconf Hallow Hnew Hsw Hsid.
  induction k as [|k IH]; intros s; cbn zeta.
  - destruct (take_action_warning_path cfg env author d sid s
                Hneg Hconf Hallow (Hnew s) Hsw Hsid) as (now & s1 & Hta & _).
    cbn [take_actions]. split; [lia|]. split; [done|].
    split; [exists []; by rewrite app_nil_r|]. by rewrite Hta.
  - destruct (take_action_warning_path cfg env author d sid s
                Hneg Hconf Hallow (Hnew s) Hsw Hsid)
      as (now & s1 & Hta & Htr & Hcalls & Hlog).
    cbn [take_actions]. rewrite Hta. cbn [snd fst].
    destruct (IH s1) as (Hn & Hc & (l & Hl & Hq) & _).
    split.
    { rewrite Hn, Htr, TrackerFacts.get_count_add_eq. lia. }
    split; [by rewrite Hc|]. split; [|done].
    destruct Hlog as [Hlog|Hlog]; rewrite Hl, Hlog.
    + by exists l.
    + exists (LogAgeError :: l). rewrite <- app_assoc. split; [done|].
      by constructor.
Qed.

(** The failing input of C6: the three [MILDLY_NEGATIVE] events of the
    claim, with the status id [process_notification] passes, under the
    shipped thresholds ([mute_threshold = 1], [block_threshold = 3]) in
    live mode. The count reaches 3 and nothing is muted or blocked; in the
    shipped dry run nothing is logged either. *)
Lemma escalation_never_reaches_an_action_witness :
  mute_threshold live_config = 1
  ∧ block_threshold live_config = 3
  ∧ (let s' := three_mild_events live_config (Some "s1") in
     InfractionTracker.get_count "troll@example.org" (tracker s')
       = InfractionTracker.get_count "troll@example.org" (tracker initial_state) + 3
     ∧ client_calls s' = client_calls initial_state
     ∧ (∃ l, log s' = log initial_state ++ l ∧ Forall (λ ev, ev = LogAgeError) l)
     ∧ fst (ActionHandler.take_action live_config (env_of ChatRaises false)
              established_author (decision_of "MILDLY_NEGATIVE" 0.9) (Some "s1")
              initial_state)
         = Raise (AttributeError "_send_warning"))
  ∧ log (three_mild_events default_config (Some "s1")) = [].
Proof.
  split; [reflexivity|]. split; [reflexivity|]. split; [|vm_compute; reflexivity].
  apply (escalation_never_reaches_an_action live_config (env_of ChatRaises false)
           established_author (decision_of "MILDLY_NEGATIVE" 0.9) (Some "s1") 3);
    try reflexivity.
  apply troll_not_allowlisted. reflexivity.
Defined.

Lemma required_key_cases key :
  key ∈ required_keys →
  key = "classification" ∨ key = "reason" ∨ key = "confidence".
Proof.
  unfold required_keys. intros H.
  apply elem_of_cons in H as [->|H]; [by left|].
  apply elem_of_cons in H as [->|H]; [by right; left|].
  apply elem_of_cons in H as [->|H]; [by right; right|].
  by apply elem_of_nil in H.
Qed.

(** C7, counterexample. [time.sleep] raises [ValueError] on a negative
    length, and the sleep between two attempts is in the [except] handler
    of the attempt, where nothing catches it. With [retry_delay = -1] and
    a classifier whose answer is not JSON, [analyze] raises [ValueError]
    after its first attempt. *)
Lemma analyze_raises_on_negative_delay :
  let cfg := set_delays (-1) 300 default_config in
  let r := AIAnalyzer.analyze cfg (env_of ChatMalformed false) "text"
             initial_state in
  fst r = Raise ValueError
  ∧ chat_calls (snd r) = 1%nat
  ∧ ¬ ∃ d s', r = (Ok d, s').
Proof.
  cbn zeta. split; [vm_compute; reflexivity|]. split; [vm_compute; reflexivity|].
  intros (d & s' & H). apply (f_equal fst) in H. vm_compute in H. discriminate H.
Qed.

(** C7, amended. For every configuration whose [retry_delay] is a length
    [time.sleep] accepts, every text and every behaviour of the
    classifier, [analyze] returns a decision: it never raises. An attempt
    fails when the call
    raises, when the text is not JSON, when one of the three keys is
    missing and when the classification is not one of the three names;
    when each of the [max_retries] attempts fails, [analyze] returns the
    classification [NEUTRAL] with confidence 0.0 and the reason that
    starts with "AI analysis failed". [take_action] on that decision does
    nothing but log that no action is needed, for every author,
    configuration and state; and its confidence is below the floor, which
    by itself makes [take_action] only write a line to the log, whatever
    the classification beside it. *)
Theorem analyze_fails_safe cfg env text s :
  sleep_outcome env (retry_delay cfg) = None →
  (∃ d s', AIAnalyzer.analyze cfg env text s = (Ok d, s'))
  ∧ ((∀ k, (k < Z.to_nat (max_retries cfg))%nat →
           ∃ e, attempt_result (chat env text (chat_calls s + k)%nat) = Raise e) →
     ∃ s', AIAnalyzer.analyze cfg env text s = (Ok failsafe, s'))
  ∧ attempt_result ChatRaises = Raise OllamaError
  ∧ attempt_result ChatMalformed = Raise JSONDecodeError
  ∧ (∀ kv key, key ∈ required_keys → dict_get key kv = None →
       attempt_result (ChatParsed (JObj kv)) = Raise ValueError)
  ∧ (∀ kv c r conf,
       dict_get "classification" kv = Some c →
       dict_get "reason" kv = Some r →
       dict_get "confidence" kv = Some conf →
       (∀ v, v ∈ valid_classifications → c ≠ JStr v) →
       ∃ e, attempt_result (ChatParsed (JObj kv)) = Raise e)
  ∧ failsafe
      = {| classification := "NEUTRAL";
           reason := JStr "AI analysis failed - defaulting to safe classification";
           confidence := PyFloat 0.0 |}
  ∧ below_confidence_floor (confidence failsafe) = true
  ∧ (∀ cfg' env' author sid s0,
       ActionHandler.take_action cfg' env' author failsafe sid s0
         = (Ok tt, set_log (log s0 ++ [LogNoAction (author_acct author)]) s0))
  ∧ (∀ cfg' env' author c r sid s0,
       ∃ ev,
         ActionHandler.take_action cfg' env' author
             {| classification := c; reason := r;
                confidence := confidence failsafe |} sid s0
           = (Ok tt, set_log (log s0 ++ [ev]) s0)).
Proof.
  intros Hsl.
  split; [|split; [|split; [|split; [|split; [|split; [|split; [|split; [|split]]]]]]]].
  - apply analyze_returns, Hsl.
  - intros Hfail.
    destruct (analyze_returns cfg env text s Hsl) as (d & s' & Ha).
    pose proof (analyze_all_fail cfg env text s Hsl Hfail) as Hd.
    rewrite Ha in Hd. cbn in Hd. injection Hd as ->. eauto.
  - reflexivity.
  - reflexivity.
  - intros kv key Hkey Hnone. cbn.
    destruct (required_key_cases key Hkey) as [->|[->| ->]]; rewrite Hnone.
    + reflexivity.
    + by destruct (dict_get "classification" kv).
    + by destruct (dict_get "classification" kv), (dict_get "reason" kv).
  - intros kv c r conf Hc Hr Hconf Hbad. cbn. rewrite Hc, Hr, Hconf.
    destruct c as [| | |v| |]; cbn; eauto.
    case_bool_decide as Hv; [|eauto]. by destruct (Hbad v Hv).
  - reflexivity.
  - reflexivity.
  - reflexivity.
  - intros cfg' env' author c r sid s0.
    destruct (low_confidence_only_logs cfg' env' author
                {| classification := c; reason := r;
                   confidence := confidence failsafe |} sid s0 eq_refl)
      as (ev & Hta & _).
    eauto.
Qed.

(** The scenario of C7: malformed JSON at each of the 3 attempts, under
    the shipped configuration, whose [retry_delay] is 5. *)
Lemma analyze_fails_safe_witness :
  max_retries default_config = 3
  ∧ retry_delay default_config = 5
  ∧ ∃ s', AIAnalyzer.analyze default_config (env_of ChatMalformed false)
            "text" initial_state = (Ok failsafe, s').
Proof.
  split; [reflexivity|]. split; [reflexivity|].
  apply (proj1 (proj2 (analyze_fails_safe default_config
                         (env_of ChatMalformed false) "text" initial_state
                         eq_refl))).
  intros k _. exists JSONDecodeError. reflexivity.
Defined.

(** C8. From a tracker whose loaded ledger has [count == len(history)] in
    every record (a missing or unreadable file gives the empty ledger, a
    file written by [_save] gives back the ledger saved), every state
    reached by a sequence of [add_infraction], [get_count] and [reset]
    keeps [count == len(history)] in every record. In such a state,
    [add_infraction] raises the handle's count by exactly 1 and appends
    exactly one entry to its history; a sequence of operations without a
    [reset] of the handle never lowers its count (0 when absent); [reset]
    removes the whole record, after which [get_count] is 0. *)
Theorem tracker_count_is_history_length (f : LedgerFile)
    (ops : list InfractionTracker.Op) :
  InfractionTracker.consistent (InfractionTracker._load f) →
  let tr := InfractionTracker.run_ops ops (InfractionTracker.__init__ f) in
  InfractionTracker.consistent (InfractionTracker.infractions tr)
  ∧ (∀ now a c r,
       InfractionTracker.get_count a (InfractionTracker.add_infraction now a c r tr)
         = InfractionTracker.get_count a tr + 1
       ∧ InfractionTracker.get_history a (InfractionTracker.add_infraction now a c r tr)
         = InfractionTracker.get_history a tr ++
             [{| h_timestamp := now; h_classification := c; h_reason := r |}])
  ∧ (∀ a more,
       forallb (λ o, negb (InfractionTracker.is_reset_of a o)) more = true →
       InfractionTracker.get_count a tr
         ≤ InfractionTracker.get_count a (InfractionTracker.run_ops more tr))
  ∧ (∀ a,
       InfractionTracker.infractions (InfractionTracker.reset a tr) !! a = None
       ∧ InfractionTracker.get_count a (InfractionTracker.reset a tr) = 0).
Proof.
  intros Hf tr. repeat split.
  - apply TrackerFacts.run_ops_consistent, Hf.
  - apply TrackerFacts.get_count_add_eq.
  - apply TrackerFacts.get_history_add_eq.
  - intros a more. apply TrackerFacts.run_ops_count_mono.
  - rewrite TrackerFacts.reset_lookup. by rewrite decide_True.
  - apply TrackerFacts.get_count_reset_eq.
Qed.

Lemma tracker_count_is_history_length_witness :
  let ops := [InfractionTracker.OpAdd 10 "a@x" "MILDLY_NEGATIVE" (JStr "rude");
              InfractionTracker.OpGet "a@x";
              InfractionTracker.OpAdd 20 "a@x" "SEVERELY_NEGATIVE" (JStr "insult");
              InfractionTracker.OpReset "b@y"] in
  let tr := InfractionTracker.run_ops ops (InfractionTracker.__init__ FileAbsent) in
  InfractionTracker.consistent (InfractionTracker.infractions tr)
  ∧ InfractionTracker.get_count "a@x" tr = 2
  ∧ InfractionTracker.get_count "a@x" (InfractionTracker.reset "a@x" tr) = 0.
Proof.
  cbn zeta.
  destruct (tracker_count_is_history_length FileAbsent
              [InfractionTracker.OpAdd 10 "a@x" "MILDLY_NEGATIVE" (JStr "rude");
               InfractionTracker.OpGet "a@x";
               InfractionTracker.OpAdd 20 "a@x" "SEVERELY_NEGATIVE" (JStr "insult");
               InfractionTracker.OpReset "b@y"])
    as (Hcons & _ & _ & Hreset).
  - apply map_Forall_empty.
  - split; [exact Hcons|]. split; [reflexivity|]. apply Hreset.
Defined.

(** C9. Once [mark_processed(id)] has completed, the id is in the set of
    processed ids, and nothing removes it. From every state whose set
    holds at least the ids held at that moment, any number of further
    iterations of the loop of [run], over any fetch results (which may
    list a notification with that id any number of times), keep the id in
    the set and never start [process_notification] on a notification with
    that id: the number of "Processing mention ... (ID: id)" lines in the
    log stays what it was. *)
Theorem marked_id_never_reprocessed cfg env fetches id s0 s :
  processed_ids (snd (NotificationProcessor.mark_processed id s0))
    ⊆ processed_ids s →
  id ∈ processed_ids s
  ∧ id ∈ processed_ids (MastodonFilter.loop cfg env fetches s)
  ∧ times_processed id (MastodonFilter.loop cfg env fetches s)
      = times_processed id s.
Proof.
  intros Hsub.
  assert (Hid : id ∈ processed_ids s).
  { apply Hsub. cbn. set_solver. }
  split; [exact Hid|].
  destruct (loop_frame cfg env fetches s) as (Hsub' & Hlog & _).
  split; [by apply Hsub'|]. by apply Hlog.
Qed.

(** After [mark_processed("1")], two cycles whose fetch still lists the
    notification "1": it is not processed again, while "2" is. *)
Lemma marked_id_never_reprocessed_witness :
  let s := snd (NotificationProcessor.mark_processed "1" initial_state) in
  let s' := MastodonFilter.loop no_warning_config hostile_env
              [FetchOk two_mentions; FetchOk two_mentions] s in
  ("1" ∈ processed_ids s
   ∧ "1" ∈ processed_ids s'
   ∧ times_processed "1" s' = times_processed "1" s)
  ∧ times_processed "2" s' = 1%nat.
Proof.
  cbn zeta. split; [|vm_compute; reflexivity].
  apply (marked_id_never_reprocessed no_warning_config hostile_env
           [FetchOk two_mentions; FetchOk two_mentions] "1" initial_state
           (snd (NotificationProcessor.mark_processed "1" initial_state))).
  reflexivity.
Defined.

(** C10. In a configuration with [dry_run] set, [take_action] makes no
    call on the Mastodon client ([_execute_action] writes the two log
    lines of a dry run and returns), and it ends as it does in live mode:
    same outcome, same ledger (in memory and on file), same processed ids.
    The same holds for whole runs of the poll loop over the same fetch
    results: no call is made, and the ledger and the dedup store end as
    they do in live mode. *)
Theorem dry_run_only_logs cfg env :
  dry_run cfg = true →
  (∀ id acct action n s,
     ActionHandler._execute_action cfg env id acct action n s
       = (Ok tt, set_log (log s ++ [LogActioning action acct n;
                                    LogDryRunWould action acct]) s))
  ∧ (∀ author d sid s, ∃ r s_dry s_live,
       ActionHandler.take_action cfg env author d sid s = (r, s_dry)
       ∧ ActionHandler.take_action (set_dry_run false cfg) env author d sid s
           = (r, s_live)
       ∧ client_calls s_dry = client_calls s
       ∧ tracker s_dry = tracker s_live
       ∧ processed_ids s_dry = processed_ids s_live)
  ∧ (∀ connected fetches s,
       let s_dry := MastodonFilter.run cfg env connected fetches s in
       let s_live :=
         MastodonFilter.run (set_dry_run false cfg) env connected fetches s in
       client_calls s_dry = client_calls s
       ∧ tracker s_dry = tracker s_live
       ∧ processed_ids s_dry = processed_ids s_live
       ∧ processed_file s_dry = processed_file s_live).
Proof.
  intros Hdry. split; [|split].
  - intros id acct action n s. unfold ActionHandler._execute_action.
    rewrite Hdry. run_m. by rewrite <- app_assoc.
  - intros author d sid s.
    destruct (take_action_dry_live cfg env author d sid s s eq_refl)
      as (r & s1 & s2 & H1 & H2 & Hc & Hcalls).
    rewrite <- Hdry, set_dry_run_id in H1.
    apply core_eq in Hc as (? & ? & _). eauto 10.
  - intros connected fetches s. cbn zeta.
    assert (Hcore : core (MastodonFilter.run cfg env connected fetches s)
              = core (MastodonFilter.run (set_dry_run false cfg) env connected fetches s)).
    { unfold MastodonFilter.run, MastodonFilter.connect.
      destruct connected; run_m.
      - rewrite <- (set_dry_run_id cfg) at 1. rewrite Hdry.
        by apply loop_dry_live.
      - done. }
    apply core_eq in Hcore as (? & ? & ? & _).
    repeat split; try done.
    unfold MastodonFilter.run, MastodonFilter.connect.
    destruct connected; run_m; [|done].
    match goal with
    | |- client_calls (MastodonFilter.loop _ _ _ ?t) = _ =>
        destruct (loop_frame cfg env fetches t) as (_ & _ & Hcalls)
    end.
    by rewrite (Hcalls Hdry).
Qed.

(** A dry run over a fetch of two mentions by a hostile established
    author, with [send_warnings] off: both mentions are processed and
    marked, two infractions are recorded and no call is made, where the
    live run mutes the author twice. *)
Lemma dry_run_only_logs_witness :
  let cfg := set_dry_run true no_warning_config in
  let s_dry := MastodonFilter.run cfg hostile_env true
                 [FetchOk two_mentions] initial_state in
  let s_live := MastodonFilter.run (set_dry_run false cfg)
                  hostile_env true [FetchOk two_mentions] initial_state in
  (client_calls s_dry = client_calls initial_state
   ∧ tracker s_dry = tracker s_live
   ∧ processed_ids s_dry = processed_ids s_live
   ∧ processed_file s_dry = processed_file s_live)
  ∧ client_calls s_live = [account_mute "42"; account_mute "42"]
  ∧ processed_file s_dry = ["2"; "1"]
  ∧ InfractionTracker.get_count "troll@example.org" (tracker s_dry) = 2.
Proof.
  cbn zeta. split; [|repeat split; vm_compute; reflexivity].
  apply (proj2 (proj2 (dry_run_only_logs (set_dry_run true no_warning_config)
                         hostile_env eq_refl))
           true [FetchOk two_mentions] initial_state).
Defined.

(** * Further properties of the code *)

(** ** The infraction ledger *)

(** X1. The operations of the tracker act on one handle: after any
    sequence of [add_infraction], [get_count] and [reset] on other
    handles, the record of a handle (or its absence) is what it was. *)
Theorem tracker_ops_leave_other_handles b ops :
  ∀ tr,
    Forall (λ o, op_handle o ≠ b) ops →
    InfractionTracker.infractions (InfractionTracker.run_ops ops tr) !! b
      = InfractionTracker.infractions tr !! b.
Proof.
  induction ops as [|o ops IH]; intros tr Hops; [done|].
  apply Forall_cons in Hops as [Ho Hops].
  rewrite run_ops_cons, (IH _ Hops). destruct o as [now a c r|a|a];
    cbn [InfractionTracker.apply_op op_handle] in *.
  - rewrite TrackerFacts.add_infraction_lookup. by rewrite decide_False.
  - done.
  - rewrite TrackerFacts.reset_lookup. by rewrite decide_False.
Qed.

Lemma tracker_ops_leave_other_handles_witness :
  let tr := InfractionTracker.add_infraction 5 "b@y" "MILDLY_NEGATIVE"
              (JStr "rude") (InfractionTracker.__init__ FileAbsent) in
  let ops := [InfractionTracker.OpAdd 10 "a@x" "SEVERELY_NEGATIVE" (JStr "insult");
              InfractionTracker.OpReset "a@x";
              InfractionTracker.OpAdd 20 "c@z" "MILDLY_NEGATIVE" (JStr "snark")] in
  InfractionTracker.infractions (InfractionTracker.run_ops ops tr) !! "b@y"
    = InfractionTracker.infractions tr !! "b@y".
Proof.
  cbn zeta.
  apply (tracker_ops_leave_other_handles "b@y").
  repeat constructor; discriminate.
Defined.

Lemma apply_op_synced o tr :
  InfractionTracker._load (InfractionTracker.file tr)
    = InfractionTracker.infractions tr →
  InfractionTracker._load (InfractionTracker.file (InfractionTracker.apply_op o tr))
    = InfractionTracker.infractions (InfractionTracker.apply_op o tr).
Proof.
  intros Hs. destruct o as [now a c r|a|a]; cbn; [done|done|].
  unfold InfractionTracker.reset.
  by destruct (InfractionTracker.infractions tr !! a).
Qed.

Lemma run_ops_synced ops : ∀ tr,
  InfractionTracker._load (InfractionTracker.file tr)
    = InfractionTracker.infractions tr →
  InfractionTracker._load (InfractionTracker.file (InfractionTracker.run_ops ops tr))
    = InfractionTracker.infractions (InfractionTracker.run_ops ops tr).
Proof.
  induction ops as [|o ops IH]; intros tr Hs; [done|].
  rewrite run_ops_cons. by apply IH, apply_op_synced.
Qed.

(** X2. The ledger is written through: whatever file the tracker was
    built from (missing, unreadable or holding a ledger), after any
    sequence of operations a tracker built anew from the file as it then
    is holds the same ledger as the one in memory. *)
Theorem tracker_reload_gives_same_ledger f ops :
  let tr := InfractionTracker.run_ops ops (InfractionTracker.__init__ f) in
  InfractionTracker.infractions
      (InfractionTracker.__init__ (InfractionTracker.file tr))
    = InfractionTracker.infractions tr.
Proof.
  cbn zeta. unfold InfractionTracker.__init__ at 1. cbn.
  apply run_ops_synced. reflexivity.
Qed.

Lemma apply_op_history_prefix a o tr :
  InfractionTracker.is_reset_of a o = false →
  InfractionTracker.get_history a tr
    `prefix_of` InfractionTracker.get_history a (InfractionTracker.apply_op o tr).
Proof.
  destruct o as [now b c r|b|b];
    cbn [InfractionTracker.apply_op InfractionTracker.is_reset_of]; intros Hr.
  - destruct (decide (b = a)) as [->|Hne].
    + rewrite TrackerFacts.get_history_add_eq. by apply prefix_app_r.
    + unfold InfractionTracker.get_history.
      rewrite TrackerFacts.add_infraction_lookup. by rewrite decide_False.
  - done.
  - apply bool_decide_eq_false in Hr. unfold InfractionTracker.get_history.
    rewrite TrackerFacts.reset_lookup. by rewrite decide_False.
Qed.

Lemma run_ops_history_prefix a ops :
  ∀ tr,
    forallb (λ o, negb (InfractionTracker.is_reset_of a o)) ops = true →
    InfractionTracker.get_history a tr
      `prefix_of` InfractionTracker.get_history a (InfractionTracker.run_ops ops tr).
Proof.
  induction ops as [|o ops IH]; intros tr Hall; [done|].
  cbn in Hall. apply andb_prop in Hall as [Ho Hall].
  apply negb_true_iff in Ho. rewrite run_ops_cons.
  etrans; [apply (apply_op_history_prefix a o tr Ho)|]. by apply IH.
Qed.

(** X3. The history of a handle is append-only: over any sequence of
    operations that does not reset the handle, the history it had (empty
    when it had no record) is a prefix of the history it has afterwards,
    so no entry is rewritten, reordered or dropped. *)
Theorem tracker_history_append_only a ops tr :
  forallb (λ o, negb (InfractionTracker.is_reset_of a o)) ops = true →
  InfractionTracker.get_history a tr
    `prefix_of` InfractionTracker.get_history a (InfractionTracker.run_ops ops tr).
Proof. apply run_ops_history_prefix. Qed.

Lemma tracker_history_append_only_witness :
  let tr := InfractionTracker.add_infraction 5 "a@x" "MILDLY_NEGATIVE"
              (JStr "rude") (InfractionTracker.__init__ FileAbsent) in
  let ops := [InfractionTracker.OpAdd 10 "a@x" "SEVERELY_NEGATIVE" (JStr "insult");
              InfractionTracker.OpReset "b@y";
              InfractionTracker.OpGet "a@x"] in
  InfractionTracker.get_history "a@x" tr
    `prefix_of` InfractionTracker.get_history "a@x" (InfractionTracker.run_ops ops tr).
Proof.
  cbn zeta.
  apply (tracker_history_append_only "a@x" _ _). reflexivity.
Defined.

(** X4. [reset] is a full amnesty: an infraction added after a reset of
    the handle is its first, whatever the handle had before: the count is
    1 and the history is that single entry. *)
Theorem tracker_add_after_reset now a c r tr :
  let tr' := InfractionTracker.add_infraction now a c r
               (InfractionTracker.reset a tr) in
  InfractionTracker.infractions tr' !! a
    = Some {| count := 1;
              history := [{| h_timestamp := now; h_classification := c;
                             h_reason := r |}] |}.
Proof.
  cbn zeta. rewrite TrackerFacts.add_infraction_lookup, decide_True by done.
  rewrite TrackerFacts.get_count_reset_eq.
  unfold InfractionTracker.get_history. rewrite TrackerFacts.reset_lookup.
  by rewrite decide_True.
Qed.

(** ** The escalation table *)

(** X5. Escalation is monotone: for a given configuration and
    classification (any string), a higher infraction count never gives a
    milder action. *)
Theorem determine_action_monotone cfg c n m :
  n ≤ m →
  (severity (ActionHandler._determine_action cfg c n)
   ≤ severity (ActionHandler._determine_action cfg c m))%nat.
Proof.
  intros Hnm. unfold ActionHandler._determine_action.
  repeat case_bool_decide; cbn; lia.
Qed.

Lemma determine_action_monotone_witness :
  (severity (ActionHandler._determine_action default_config "MILDLY_NEGATIVE" 2)
   ≤ severity (ActionHandler._determine_action default_config "MILDLY_NEGATIVE" 3))%nat.
Proof.
  apply (determine_action_monotone default_config "MILDLY_NEGATIVE" 2 3). lia.
Defined.

(** X6. At the same infraction count a [SEVERELY_NEGATIVE] post is
    treated at least as harshly as a [MILDLY_NEGATIVE] one and is never
    left without action, while a classification that is neither of the two
    never leads to an action. *)
Theorem determine_action_by_severity cfg n :
  (severity (ActionHandler._determine_action cfg "MILDLY_NEGATIVE" n)
   ≤ severity (ActionHandler._determine_action cfg "SEVERELY_NEGATIVE" n))%nat
  ∧ ActionHandler._determine_action cfg "SEVERELY_NEGATIVE" n ≠ none
  ∧ ∀ c, is_negative c = false → ActionHandler._determine_action cfg c n = none.
Proof.
  split; [|split].
  - rewrite determine_action_mild, determine_action_severe.
    repeat case_bool_decide; cbn; lia.
  - rewrite determine_action_severe. by case_bool_decide.
  - intros c Hc. unfold ActionHandler._determine_action.
    unfold is_negative in Hc. apply bool_decide_eq_false in Hc.
    repeat case_bool_decide; try done; subst; exfalso; apply Hc;
      solve [repeat constructor].
Qed.

(** X7. The mute step exists only when [mute_threshold] is below
    [block_threshold]: otherwise a [MILDLY_NEGATIVE] post is never muted,
    at any count; it goes from no action straight to a block. *)
Theorem determine_action_no_mute_step cfg n :
  block_threshold cfg ≤ mute_threshold cfg →
  ActionHandler._determine_action cfg "MILDLY_NEGATIVE" n ≠ mute.
Proof.
  intros Hth. rewrite determine_action_mild.
  repeat case_bool_decide; try done. lia.
Qed.

Lemma determine_action_no_mute_step_witness :
  ActionHandler._determine_action (set_thresholds 3 3 default_config)
    "MILDLY_NEGATIVE" 2 ≠ mute.
Proof.
  apply (determine_action_no_mute_step (set_thresholds 3 3 default_config) 2).
  reflexivity.
Defined.

(** ** The age of an account *)

Lemma days_le_iff x n :
  x `div` microseconds_per_day ≤ n ↔ x < (n + 1) * microseconds_per_day.
Proof.
  assert (0 < microseconds_per_day) as Hd by reflexivity.
  pose proof (Z.div_mod x microseconds_per_day ltac:(lia)) as Hdm.
  pose proof (Z.mod_pos_bound x microseconds_per_day Hd) as Hm.
  split; intros H; nia.
Qed.

(** X8. [_is_new_account] never raises and changes neither the ledger,
    nor the dedup store, nor the calls made on the client. An account
    whose creation time cannot be read is not new; otherwise the account
    is new exactly while less than [new_account_days + 1] whole days have
    passed since its creation: with the shipped 30 days, an account aged
    30 days and 23 hours is still new, and so is any account whose
    creation time lies in the future. *)
Theorem is_new_account_boundary cfg env author s :
  ∃ s',
    ActionHandler._is_new_account cfg env author s
      = (Ok match created_at author with
            | Some t =>
                bool_decide (clock env (clock_reads s) - t
                             < (new_account_days cfg + 1) * microseconds_per_day)
            | None => false
            end, s')
    ∧ tracker s' = tracker s
    ∧ processed_ids s' = processed_ids s
    ∧ client_calls s' = client_calls s.
Proof.
  unfold ActionHandler._is_new_account. run_m.
  destruct (created_at author) as [t|]; cbn.
  - case_bool_decide as Hage; cbn.
    + rewrite bool_decide_eq_true_2 by (by apply days_le_iff).
      eexists. split; [reflexivity|]. done.
    + rewrite bool_decide_eq_false_2 by (by rewrite <- days_le_iff).
      eexists. split; [reflexivity|]. done.
  - eexists. split; [reflexivity|]. done.
Qed.

(** ** What [take_action] can do *)

(** X9. One [take_action] makes at most one call on the client, a mute or
    a block of the author of the post, and makes one only in live mode,
    for a [MILDLY_NEGATIVE] or [SEVERELY_NEGATIVE] classification whose
    confidence is not below 0.6 and an author that is not allowlisted. It
    leaves the ledger as it was or with one more infraction of that
    author, and never touches the dedup store. *)
Theorem take_action_effects cfg env author d sid s :
  ∃ r s' calls,
    ActionHandler.take_action cfg env author d sid s = (r, s')
    ∧ client_calls s' = client_calls s ++ calls
    ∧ (calls = []
       ∨ (calls = [account_mute (author_id author)]
          ∨ calls = [account_block (author_id author)])
         ∧ dry_run cfg = false
         ∧ is_negative (classification d) = true
         ∧ below_confidence_floor (confidence d) = false
         ∧ author_acct author ∉ allowlist cfg)
    ∧ (tracker s' = tracker s
       ∨ ∃ now,
           tracker s'
             = InfractionTracker.add_infraction now (author_acct author)
                 (classification d) (reason d) (tracker s))
    ∧ processed_ids s' = processed_ids s
    ∧ processed_file s' = processed_file s.
Proof.
  unfold ActionHandler.take_action, ActionHandler._is_new_account,
    ActionHandler._execute_action, ActionHandler._send_warning,
    ActionHandler._determine_action.
  run_m. split_cases.
  all: do 3 eexists; (split; [reflexivity|]); cbn.
  all: split; [first [symmetry; apply app_nil_r | reflexivity]|].
  all: bool_facts.
  all: repeat match goal with
              | H : bool_decide (_ ∈ _) = false |- _ =>
                  apply bool_decide_eq_false in H
              | H : bool_decide (_ = _) = true |- _ =>
                  apply bool_decide_eq_true in H
              end.
  all: try match goal with
           | H1 : classification ?x = _,
             H2 : is_negative (classification ?x) = false |- _ =>
               rewrite H1 in H2; discriminate H2
           end.
  all: split; [first [by left | right; repeat split; auto; congruence]|].
  all: split; [first [by left | right; eexists; reflexivity]|done].
Qed.

(** ** The retry loop of [analyze] *)

Lemma attempts_first_success cfg env text k :
  ∀ remaining attempt s d,
    (k < remaining)%nat →
    attempt + Z.of_nat remaining = max_retries cfg →
    ((0 < k)%nat → sleep_outcome env (retry_delay cfg) = None) →
    (∀ j, (j < k)%nat →
          ∃ e, attempt_result (chat env text (chat_calls s + j)%nat) = Raise e) →
    attempt_result (chat env text (chat_calls s + k)%nat) = Ok d →
    ∃ s',
      AIAnalyzer.attempts cfg env text attempt remaining s = (Ok (Some d), s')
      ∧ chat_calls s' = (chat_calls s + S k)%nat
      ∧ slept s' = slept s + Z.of_nat k * retry_delay cfg.
Proof.
  induction k as [|k IH]; intros remaining attempt s d Hk Hsum Hsl Hfail Hok.
  - destruct remaining as [|n]; [lia|].
    rewrite Nat.add_0_r in Hok.
    cbn [AIAnalyzer.attempts]. unfold bind at 1, try_except, bind at 1.
    rewrite (attempt_body_ok env text s d Hok). cbn.
    eexists. split; [reflexivity|]. cbn. split; lia.
  - destruct remaining as [|n]; [lia|].
    destruct (Hfail 0%nat ltac:(lia)) as [e He]. rewrite Nat.add_0_r in He.
    cbn [AIAnalyzer.attempts]. unfold bind at 1, try_except, bind at 1.
    rewrite (attempt_body_raise env text s e He).
    unfold bind at 1. unfold logger at 1. unfold bind at 1.
    rewrite bool_decide_eq_true_2 by lia.
    unfold time_sleep. rewrite (Hsl ltac:(lia)). unfold bind, ret.
    match goal with
    | |- context [AIAnalyzer.attempts _ _ _ _ _ ?s2] =>
        destruct (IH n (attempt + 1) s2 d) as (s' & -> & Hc & Hs)
    end.
    + lia.
    + lia.
    + intros _. apply Hsl. lia.
    + intros j Hj. cbn. destruct (Hfail (S j) ltac:(lia)) as [e' He'].
      exists e'. rewrite <- He'. do 2 f_equal. lia.
    + cbn. rewrite <- Hok. do 2 f_equal. lia.
    + exists s'. split; [done|]. cbn in Hc, Hs. split; lia.
Qed.

Lemma attempts_exhausted cfg env text remaining :
  ∀ attempt s,
    attempt + Z.of_nat remaining = max_retries cfg →
    ((1 < remaining)%nat → sleep_outcome env (retry_delay cfg) = None) →
    (∀ j, (j < remaining)%nat →
          ∃ e, attempt_result (chat env text (chat_calls s + j)%nat) = Raise e) →
    ∃ s',
      AIAnalyzer.attempts cfg env text attempt remaining s = (Ok None, s')
      ∧ chat_calls s' = (chat_calls s + remaining)%nat
      ∧ slept s' = slept s + Z.of_nat (pred remaining) * retry_delay cfg.
Proof.
  induction remaining as [|n IH]; intros attempt s Hsum Hsl Hfail.
  - exists s. cbn. split; [done|]. split; lia.
  - destruct (Hfail 0%nat ltac:(lia)) as [e He]. rewrite Nat.add_0_r in He.
    assert (Hnext : ∀ s2, chat_calls s2 = S (chat_calls s) →
              ∀ j, (j < n)%nat →
                ∃ e', attempt_result (chat env text (chat_calls s2 + j)%nat) = Raise e').
    { intros s2 Hs2 j Hj. destruct (Hfail (S j) ltac:(lia)) as [e' He'].
      exists e'. rewrite <- He'. do 2 f_equal. lia. }
    cbn [AIAnalyzer.attempts]. unfold bind at 1, try_except, bind at 1.
    rewrite (attempt_body_raise env text s e He).
    unfold bind at 1. unfold logger at 1. unfold bind at 1.
    case_bool_decide as Hlast.
    + unfold time_sleep. rewrite (Hsl ltac:(lia)). run_m.
      match goal with
      | |- context [AIAnalyzer.attempts _ _ _ _ _ ?s2] =>
          destruct (IH (attempt + 1) s2 ltac:(lia) ltac:(intros; apply Hsl; lia)
                      (Hnext s2 eq_refl))
            as (s' & -> & Hc & Hs)
      end.
      exists s'; split; [done|]; cbn in Hc, Hs; split; [lia|].
      destruct n; [lia|]. cbn [pred] in *. lia.
    + run_m.
      match goal with
      | |- context [AIAnalyzer.attempts _ _ _ _ _ ?s2] =>
          destruct (IH (attempt + 1) s2 ltac:(lia) ltac:(intros; apply Hsl; lia)
                      (Hnext s2 eq_refl))
            as (s' & -> & Hc & Hs)
      end.
      exists s'; split; [done|]; cbn in Hc, Hs; split; [lia|].
      assert (n = 0%nat) as -> by lia. cbn in *. lia.
Qed.

(** X11. The first valid answer wins. When the answers to the first [k]
    calls of the classifier fail and the next one is valid, with
    [k < max_retries], and [time.sleep] accepts [retry_delay] where there
    is a failed call to wait after, [analyze] returns the decision of that
    answer, having made exactly [k + 1] calls and slept [k] times
    [retry_delay]: it asks no more once it has an answer. *)
Theorem analyze_first_valid_answer cfg env text s k d :
  (k < Z.to_nat (max_retries cfg))%nat →
  ((0 < k)%nat → sleep_outcome env (retry_delay cfg) = None) →
  (∀ j, (j < k)%nat →
        ∃ e, attempt_result (chat env text (chat_calls s + j)%nat) = Raise e) →
  attempt_result (chat env text (chat_calls s + k)%nat) = Ok d →
  ∃ s',
    AIAnalyzer.analyze cfg env text s = (Ok d, s')
    ∧ chat_calls s' = (chat_calls s + S k)%nat
    ∧ slept s' = slept s + Z.of_nat k * retry_delay cfg.
Proof.
  intros Hk Hsl Hfail Hok. unfold AIAnalyzer.analyze.
  destruct (attempts_first_success cfg env text k (Z.to_nat (max_retries cfg))
              0 s d Hk ltac:(lia) Hsl Hfail Hok) as (s' & Ha & Hc & Hs).
  rewrite (bind_ok _ _ _ _ _ Ha). by exists s'.
Qed.

Lemma analyze_first_valid_answer_witness :
  ∃ s',
    AIAnalyzer.analyze default_config recovering_env "text" initial_state
      = (Ok (decision_of "MILDLY_NEGATIVE" 0.7), s')
    ∧ chat_calls s' = 3%nat
    ∧ slept s' = 10.
Proof.
  apply (analyze_first_valid_answer default_config recovering_env "text"
           initial_state 2 (decision_of "MILDLY_NEGATIVE" 0.7)).
  - vm_compute. lia.
  - intros _. reflexivity.
  - intros j Hj. exists JSONDecodeError.
    destruct j as [|[|j]]; [reflexivity|reflexivity|lia].
  - reflexivity.
Defined.

(** X12. Retries are bounded. When every one of the [max_retries]
    attempts fails, and [time.sleep] accepts [retry_delay] where there is
    more than one attempt to make, [analyze] has called the classifier
    exactly [max_retries] times (not at all when [max_retries] is zero or
    negative) and has slept [retry_delay] after each failed attempt but
    the last, before it returns the fail-safe decision. *)
Theorem analyze_exhaustion_cost cfg env text s :
  (1 < max_retries cfg → sleep_outcome env (retry_delay cfg) = None) →
  (∀ j, (j < Z.to_nat (max_retries cfg))%nat →
        ∃ e, attempt_result (chat env text (chat_calls s + j)%nat) = Raise e) →
  ∃ s',
    AIAnalyzer.analyze cfg env text s = (Ok failsafe, s')
    ∧ chat_calls s' = (chat_calls s + Z.to_nat (max_retries cfg))%nat
    ∧ slept s'
        = slept s + Z.of_nat (pred (Z.to_nat (max_retries cfg))) * retry_delay cfg.
Proof.
  intros Hsl Hfail. unfold AIAnalyzer.analyze.
  destruct (Z_le_gt_dec (max_retries cfg) 0) as [Hle|Hgt].
  - assert (Z.to_nat (max_retries cfg) = 0%nat) as Hz by lia.
    rewrite Hz. cbn. exists s. split; [done|]. split; lia.
  - destruct (attempts_exhausted cfg env text (Z.to_nat (max_retries cfg))
                0 s ltac:(lia) ltac:(intros; apply Hsl; lia) Hfail)
      as (s' & Ha & Hc & Hs).
    rewrite (bind_ok _ _ _ _ _ Ha). by exists s'.
Qed.

Lemma analyze_exhaustion_cost_witness :
  ∃ s',
    AIAnalyzer.analyze default_config (env_of ChatRaises false) "text"
        initial_state = (Ok failsafe, s')
    ∧ chat_calls s' = 3%nat
    ∧ slept s' = 10.
Proof.
  apply (analyze_exhaustion_cost default_config (env_of ChatRaises false)
           "text" initial_state).
  - intros _. reflexivity.
  - intros j _. exists OllamaError. reflexivity.
Defined.

Lemma validate_well_formed j d :
  validate j = Ok d →
  classification d ∈ valid_classifications
  ∧ match confidence d with
    | PyInt z => Z.abs z < float_of_int_limit
    | PyFloat _ => True
    end.
Proof.
  unfold validate. destruct j as [| | | | |kv]; try discriminate.
  destruct (dict_get "classification" kv) as [c|]; [|discriminate].
  destruct (dict_get "reason" kv) as [r|]; [|discriminate].
  destruct (dict_get "confidence" kv) as [conf|]; [|discriminate].
  destruct c as [| | |cs| |]; try discriminate. cbn.
  case_bool_decide as Hcs; [|discriminate].
  destruct conf as [|b|[z|f]| | |]; try discriminate; cbn.
  - intros [= <-]. cbn. split; [done|]. by destruct b.
  - case_bool_decide as Hz; [|discriminate]. intros [= <-]. done.
  - intros [= <-]. done.
Qed.

Lemma attempts_well_formed cfg env text remaining :
  ∀ attempt s d s',
    AIAnalyzer.attempts cfg env text attempt remaining s = (Ok (Some d), s') →
    ∃ j, validate j = Ok d.
Proof.
  induction remaining as [|n IH]; intros attempt s d s'; [discriminate|].
  cbn [AIAnalyzer.attempts]. unfold bind at 1, try_except, bind at 1.
  unfold AIAnalyzer.attempt_body.
  destruct (attempt_result (chat env text (chat_calls s))) as [d0|e] eqn:Hr.
  - run_m. intros [= <- _].
    destruct (chat env text (chat_calls s)); try discriminate. eauto.
  - rewrite !bind_logger. case_bool_decide.
    + unfold time_sleep.
      destruct (sleep_outcome env (retry_delay cfg)); run_m; [discriminate|].
      apply IH.
    + run_m. apply IH.
Qed.

(** X13. Whatever the classifier answers, a decision [analyze] returns
    is well formed: its classification is one of [NEUTRAL],
    [MILDLY_NEGATIVE] and [SEVERELY_NEGATIVE], and its confidence is a
    number that [confidence < 0.6] and the [.2f] format accept (a float,
    or an integer that converts to a float). The only exception that
    leaves [analyze] is the one [time.sleep] raises on [retry_delay]. *)
Theorem analyze_returns_well_formed cfg env text s :
  match fst (AIAnalyzer.analyze cfg env text s) with
  | Ok d =>
      classification d ∈ valid_classifications
      ∧ match confidence d with
        | PyInt z => Z.abs z < float_of_int_limit
        | PyFloat _ => True
        end
  | Raise e => sleep_outcome env (retry_delay cfg) = Some e
  end.
Proof.
  unfold AIAnalyzer.analyze.
  destruct (attempts_frame cfg env text (Z.to_nat (max_retries cfg)) 0 s)
    as (r & s' & Ha & H).
  destruct r as [[d|]|e].
  - rewrite (bind_ok _ _ _ _ _ Ha). cbn.
    destruct (attempts_well_formed _ _ _ _ _ _ _ _ Ha) as [j Hj].
    by apply (validate_well_formed j).
  - rewrite (bind_ok _ _ _ _ _ Ha). cbn. split; [|done].
    apply list_elem_of_here.
  - rewrite (bind_raise _ _ _ _ _ Ha). cbn. do 6 destruct H as [_ H]. exact H.
Qed.

(** X14. The validation of an answer looks at three keys only and puts
    no bound on the confidence. An object whose classification is one of
    the three names is accepted with any float as confidence (outside
    [0, 1], infinite or [nan]), with [true] or [false] as confidence
    (read as 1 and 0), with anything as reason, and with any other keys
    beside; and [nan] and [true] are not below the confidence floor. *)
Theorem validate_is_lenient kv c r :
  dict_get "classification" kv = Some (JStr c) →
  c ∈ valid_classifications →
  dict_get "reason" kv = Some r →
  (∀ f, dict_get "confidence" kv = Some (JNum (PyFloat f)) →
        validate (JObj kv)
          = Ok {| classification := c; reason := r; confidence := PyFloat f |})
  ∧ (∀ b, dict_get "confidence" kv = Some (JBool b) →
          validate (JObj kv)
            = Ok {| classification := c; reason := r;
                    confidence := PyInt (if b then 1 else 0) |})
  ∧ below_confidence_floor (PyFloat nan) = false
  ∧ below_confidence_floor (PyInt 1) = false.
Proof.
  intros Hc Hin Hr. split; [|split; [|split]]; [| |reflexivity|reflexivity].
  - intros f Hf. unfold validate. rewrite Hc, Hr, Hf. cbn.
    by rewrite bool_decide_eq_true_2.
  - intros b Hb. unfold validate. rewrite Hc, Hr, Hb. cbn.
    by rewrite bool_decide_eq_true_2.
Qed.

Lemma validate_is_lenient_witness :
  validate (JObj [("note", JNull); ("confidence", JNum (PyFloat nan));
                  ("reason", JArr []); ("classification", JStr "SEVERELY_NEGATIVE")])
    = Ok {| classification := "SEVERELY_NEGATIVE"; reason := JArr [];
            confidence := PyFloat nan |}.
Proof.
  apply (proj1 (validate_is_lenient
                  [("note", JNull); ("confidence", JNum (PyFloat nan));
                   ("reason", JArr []); ("classification", JStr "SEVERELY_NEGATIVE")]
                  "SEVERELY_NEGATIVE" (JArr []) eq_refl
                  ltac:(do 2 apply list_elem_of_further; apply list_elem_of_here)
                  eq_refl) nan).
  reflexivity.
Defined.

(** ** The poll loop *)

Lemma cycle_body_all_seen cfg env batch s :
  (∀ n, n ∈ batch → notif_id n ∈ processed_ids s) →
  MastodonFilter.cycle_body cfg env (FetchOk batch) s
    = (Ok tt, set_log (log s ++ [LogChecking; LogNoNew]) s).
Proof.
  intros Hseen. unfold MastodonFilter.cycle_body. rewrite bind_logger.
  unfold bind at 1, ret at 1. unfold bind at 1.
  assert (filter (λ n, ¬ NotificationProcessor.is_processed (notif_id n)
                         (set_log (log s ++ [LogChecking]) s)) batch = []) as ->.
  { induction batch as [|n batch IH]; [done|].
    rewrite filter_cons_False.
    - apply IH. intros m Hm. apply Hseen. by right.
    - intros Hn. apply Hn. unfold NotificationProcessor.is_processed. cbn.
      apply bool_decide_pack, Hseen. by left. }
  unfold logger. cbn. by rewrite <- app_assoc.
Qed.

(** X15. A fetch that lists only notifications already marked processed
    (an empty fetch among them) does nothing but write two lines to the
    log: the classifier is not called, the ledger, the dedup store and the
    client are left alone. *)
Theorem fetch_of_processed_only_logs cfg env batch s :
  (∀ n, n ∈ batch → notif_id n ∈ processed_ids s) →
  MastodonFilter.cycle_body cfg env (FetchOk batch) s
    = (Ok tt, set_log (log s ++ [LogChecking; LogNoNew]) s).
Proof. apply cycle_body_all_seen. Qed.

(** Both mentions of the fetch are already marked processed. *)
Lemma fetch_of_processed_only_logs_witness :
  let s := set_processed {["1"; "2"]} ["1"; "2"] initial_state in
  MastodonFilter.cycle_body default_config hostile_env (FetchOk two_mentions) s
    = (Ok tt, set_log (log s ++ [LogChecking; LogNoNew]) s).
Proof.
  apply (fetch_of_processed_only_logs default_config hostile_env two_mentions
           (set_processed {["1"; "2"]} ["1"; "2"] initial_state)).
  intros n Hn. unfold two_mentions in Hn.
  repeat (apply elem_of_cons in Hn as [->|Hn]);
    [vm_compute; reflexivity .. | by apply elem_of_nil in Hn].
Defined.

Lemma cycle_body_trace cfg env batch s :
  ∃ r s' done_ ops,
    MastodonFilter.cycle_body cfg env (FetchOk batch) s = (r, s')
    ∧ processed_order (log s') = processed_order (log s) ++ done_
    ∧ done_ `prefix_of`
        (notif_id <$> reverse (filter (λ n, notif_id n ∉ processed_ids s) batch))
    ∧ (r = Ok tt →
       done_ = notif_id <$> reverse (filter (λ n, notif_id n ∉ processed_ids s) batch))
    ∧ (send_warnings cfg = false → sleep_outcome env (retry_delay cfg) = None →
       r = Ok tt)
    ∧ (∃ marked, marked `sublist_of` done_
                 ∧ processed_file s' = processed_file s ++ marked
                 ∧ processed_ids s' = list_to_set marked ∪ processed_ids s)
    ∧ tracker s' = InfractionTracker.run_ops ops (tracker s)
    ∧ forallb is_add ops = true.
Proof.
  unfold MastodonFilter.cycle_body. rewrite bind_logger.
  unfold bind at 1, ret at 1. unfold bind at 1.
  set (s0 := set_log _ s).
  assert (Hfilter : filter (λ n, ¬ NotificationProcessor.is_processed (notif_id n) s0)
                      batch
                    = filter (λ n, notif_id n ∉ processed_ids s) batch).
  { apply list_filter_iff. intros n.
    unfold NotificationProcessor.is_processed. subst s0. cbn.
    by rewrite bool_decide_spec. }
  rewrite Hfilter. set (new := filter _ batch).
  destruct (process_each_trace cfg env (reverse new)
              (set_log (log s0 ++ [LogFound (length new)]) s0))
    as (r & s' & done_ & ops & Hpe & Hord & Hpre & Hall & Hok & Hmarked & Htr & Hadd).
  assert (Hord' : processed_order (log s') = processed_order (log s) ++ done_).
  { rewrite Hord. subst s0. cbn [log set_log].
    rewrite !processed_order_app. cbn. by rewrite !app_nil_r. }
  destruct new as [|n0 new'] eqn:Hnew.
  - exists (Ok tt), (set_log (log s0 ++ [LogNoNew]) s0), [], [].
    split; [reflexivity|]. cbn [log set_log]. subst s0. cbn [log set_log].
    rewrite !processed_order_app. cbn. rewrite !app_nil_r.
    repeat split; try done.
    exists []. rewrite app_nil_r. repeat split; [done|].
    by rewrite list_to_set_nil, (left_id_L ∅ (∪)).
  - exists r, s', done_, ops. split; [exact Hpe|]. done.
Qed.

(** X16. Within a cycle the unseen mentions are processed oldest first:
    in the reverse of the order of the fetch, each as many times as the
    fetch lists it, and those already marked processed not at all. The
    ids on which processing was started in the cycle are a prefix of that
    list, the whole list when the cycle ends without an exception, which
    is always so with [send_warnings] off and a [retry_delay] that
    [time.sleep] accepts. *)
Theorem cycle_processes_oldest_first cfg env batch s :
  ∃ r s' started,
    MastodonFilter.cycle_body cfg env (FetchOk batch) s = (r, s')
    ∧ processed_order (log s') = processed_order (log s) ++ started
    ∧ started `prefix_of`
        (notif_id <$> reverse (filter (λ n, notif_id n ∉ processed_ids s) batch))
    ∧ (r = Ok tt →
       started
         = notif_id <$> reverse (filter (λ n, notif_id n ∉ processed_ids s) batch))
    ∧ (send_warnings cfg = false → sleep_outcome env (retry_delay cfg) = None →
       r = Ok tt).
Proof.
  destruct (cycle_body_trace cfg env batch s)
    as (r & s' & done_ & ops & Hcb & Hord & Hpre & Hall & Hok & _).
  exists r, s', done_. done.
Qed.

Lemma cycle_raises cfg env s :
  MastodonFilter.cycle_body cfg env FetchRaises s
    = (Raise MastodonError, set_log (log s ++ [LogChecking]) s).
Proof. reflexivity. Qed.

Lemma iteration_trace cfg env fetch s :
  let s' := snd (MastodonFilter.iteration cfg env fetch s) in
  ∃ marked ops,
    processed_file s' = processed_file s ++ marked
    ∧ processed_ids s' = list_to_set marked ∪ processed_ids s
    ∧ (∀ id, id ∈ marked → ∃ batch n, fetch = FetchOk batch ∧ n ∈ batch ∧ notif_id n = id)
    ∧ tracker s' = InfractionTracker.run_ops ops (tracker s)
    ∧ forallb is_add ops = true.
Proof.
  assert (Hnil : ∀ t : State,
            processed_ids t = list_to_set [] ∪ processed_ids t).
  { intros t. by rewrite list_to_set_nil, (left_id_L ∅ (∪)). }
  unfold MastodonFilter.iteration. destruct fetch as [batch| |].
  - destruct (cycle_body_trace cfg env batch s)
      as (r & s1 & done_ & ops & Hcb & _ & Hpre & _ & _
          & (marked & Hsub & Hf & Hp) & Htr & Hadd).
    unfold try_except. rewrite Hcb. exists marked, ops.
    assert (Hin : ∀ id, id ∈ marked →
              ∃ batch0 n, FetchOk batch = FetchOk batch0 ∧ n ∈ batch0 ∧ notif_id n = id).
    { intros id Hid.
      assert (id ∈ notif_id <$> reverse (filter (λ n, notif_id n ∉ processed_ids s) batch))
        as Hid'.
      { destruct Hpre as [k ->]. apply elem_of_app. left.
        by apply (elem_of_sublist marked). }
      apply list_elem_of_fmap in Hid' as (n & -> & Hn).
      apply elem_of_reverse, list_elem_of_filter in Hn as [_ Hn]. eauto. }
    destruct r as [[]|e]; cbn [snd]; rewrite ?bind_logger; unfold time_sleep;
      destruct (sleep_outcome env (poll_interval cfg)); run_m; done.
  - exists [], []. rewrite app_nil_r. unfold try_except.
    rewrite cycle_raises; cbn [snd]; rewrite ?bind_logger; unfold time_sleep.
    destruct (sleep_outcome env (poll_interval cfg)); run_m;
      repeat split; try done; intros id Hid; by apply elem_of_nil in Hid.
  - exists [], []. run_m. rewrite app_nil_r. repeat split; try done.
    intros id Hid. by apply elem_of_nil in Hid.
Qed.

Lemma loop_trace cfg env fetches : ∀ s,
  let s' := MastodonFilter.loop cfg env fetches s in
  ∃ marked ops,
    processed_file s' = processed_file s ++ marked
    ∧ processed_ids s' = list_to_set marked ∪ processed_ids s
    ∧ (∀ id, id ∈ marked →
             ∃ batch n, FetchOk batch ∈ fetches ∧ n ∈ batch ∧ notif_id n = id)
    ∧ tracker s' = InfractionTracker.run_ops ops (tracker s)
    ∧ forallb is_add ops = true.
Proof.
  induction fetches as [|fetch fetches IH]; intros s; cbn zeta.
  - exists [], []. cbn. rewrite app_nil_r. repeat split; try done.
    + by rewrite (left_id_L ∅ (∪)).
    + intros id Hid. by apply elem_of_nil in Hid.
  - cbn [MastodonFilter.loop].
    destruct (iteration_trace cfg env fetch s)
      as (marked1 & ops1 & Hf1 & Hp1 & Hin1 & Htr1 & Hadd1).
    destruct (MastodonFilter.iteration cfg env fetch s) as [b s1]. cbn [snd] in *.
    assert (Hin1' : ∀ id, id ∈ marked1 →
              ∃ batch n, FetchOk batch ∈ fetch :: fetches ∧ n ∈ batch ∧ notif_id n = id).
    { intros id Hid. destruct (Hin1 id Hid) as (batch & n & -> & Hn & Hidn).
      exists batch, n. split; [by left|done]. }
    destruct b.
    + destruct (IH s1) as (marked & ops & Hf & Hp & Hin & Htr & Hadd).
      exists (marked1 ++ marked), (ops1 ++ ops).
      split; [by rewrite Hf, Hf1, <- app_assoc|].
      split.
      { rewrite Hp, Hp1, list_to_set_app_L.
        by rewrite (assoc_L (∪)), (comm_L (∪) (list_to_set marked)). }
      split.
      { intros id [Hid|Hid]%elem_of_app; [by apply Hin1'|].
        destruct (Hin id Hid) as (batch & n & Hb & Hn & Hidn).
        exists batch, n. split; [by right|done]. }
      split; [by rewrite run_ops_app, <- Htr1|].
      by rewrite forallb_app, Hadd1, Hadd.
    + exists marked1, ops1. done.
Qed.

Lemma adds_have_no_reset a ops :
  forallb is_add ops = true →
  forallb (λ o, negb (InfractionTracker.is_reset_of a o)) ops = true.
Proof.
  induction ops as [|o ops IH]; [done|]. cbn.
  intros [Ho Hops]%andb_prop. rewrite (IH Hops), andb_true_r.
  by destruct o.
Qed.

(** X17. The running filter never forgives: over any run of the loop,
    whatever is fetched and whatever the classifier and the client do, no
    handle's infraction count goes down, and the history each handle had
    is a prefix of the history it has at the end ([reset] is never
    called). The ledger file also stays the copy of the ledger in memory,
    when it was one at the start. *)
Theorem loop_never_forgives cfg env fetches s a :
  let s' := MastodonFilter.loop cfg env fetches s in
  InfractionTracker.get_count a (tracker s)
    ≤ InfractionTracker.get_count a (tracker s')
  ∧ InfractionTracker.get_history a (tracker s)
      `prefix_of` InfractionTracker.get_history a (tracker s')
  ∧ (InfractionTracker._load (InfractionTracker.file (tracker s))
       = InfractionTracker.infractions (tracker s) →
     InfractionTracker._load (InfractionTracker.file (tracker s'))
       = InfractionTracker.infractions (tracker s')).
Proof.
  cbn zeta.
  destruct (loop_trace cfg env fetches s) as (_ & ops & _ & _ & _ & -> & Hadd).
  pose proof (adds_have_no_reset a ops Hadd) as Hnr.
  split; [by apply TrackerFacts.run_ops_count_mono|].
  split; [by apply run_ops_history_prefix|].
  apply run_ops_synced.
Qed.

Lemma loop_interrupted cfg env pre post : ∀ s,
  MastodonFilter.loop cfg env (pre ++ FetchInterrupted :: post) s
    = MastodonFilter.loop cfg env (pre ++ [FetchInterrupted]) s.
Proof.
  induction pre as [|fetch pre IH]; intros s.
  - reflexivity.
  - cbn [app MastodonFilter.loop].
    destruct (MastodonFilter.iteration cfg env fetch s) as [[] s1]; [apply IH|done].
Qed.

(** X18. An interrupt that arrives during a fetch ends the loop: what
    the later fetches would have returned has no effect on the final
    state, and after the interrupt the loop only logs the shutdown,
    without sleeping. *)
Theorem interrupt_ends_the_loop cfg env pre post s :
  MastodonFilter.loop cfg env (pre ++ FetchInterrupted :: post) s
    = MastodonFilter.loop cfg env (pre ++ [FetchInterrupted]) s
  ∧ MastodonFilter.iteration cfg env FetchInterrupted s
    = (false, set_log (log s ++ [LogChecking; LogShutdown]) s).
Proof.
  split; [apply loop_interrupted|].
  unfold MastodonFilter.iteration. run_m. by rewrite <- app_assoc.
Qed.

Lemma iteration_all_seen cfg env batch t :
  sleep_outcome env (poll_interval cfg) = None →
  (∀ n, n ∈ batch → notif_id n ∈ processed_ids t) →
  MastodonFilter.iteration cfg env (FetchOk batch) t
    = (true,
       set_slept (slept t + poll_interval cfg)
         (set_log (log t ++ [LogChecking; LogNoNew; LogSleeping (poll_interval cfg)])
                  t)).
Proof.
  intros Hsl Hseen. unfold MastodonFilter.iteration, try_except.
  rewrite (cycle_body_all_seen cfg env batch t Hseen). cbn [snd].
  rewrite bind_logger, (time_sleep_ok _ _ _ Hsl). cbn.
  by rewrite <- !app_assoc.
Qed.

(** X19. With [send_warnings] off and delays that [time.sleep] accepts, a
    cycle is idempotent on its fetch: when the next fetch returns the same
    mentions again, the second cycle processes none of them; it leaves the
    ledger, the dedup store, the client and the classifier alone and only
    logs and sleeps. *)
Theorem repeated_fetch_is_a_no_op cfg env batch s :
  send_warnings cfg = false →
  sleep_outcome env (retry_delay cfg) = None →
  sleep_outcome env (poll_interval cfg) = None →
  let s1 := snd (MastodonFilter.iteration cfg env (FetchOk batch) s) in
  MastodonFilter.iteration cfg env (FetchOk batch) s1
    = (true,
       set_slept (slept s1 + poll_interval cfg)
         (set_log (log s1 ++ [LogChecking; LogNoNew; LogSleeping (poll_interval cfg)])
                  s1)).
Proof.
  intros Hsw Hretry Hpoll. cbn zeta. apply iteration_all_seen; [exact Hpoll|].
  intros n Hn.
  destruct (cycle_body_frame cfg env (FetchOk batch) s)
    as (r & s' & Hcb & _ & _ & Hall & Hok & _).
  rewrite (Hok Hsw Hretry batch eq_refl) in Hcb, Hall.
  unfold MastodonFilter.iteration, try_except. rewrite Hcb. cbn [snd].
  rewrite bind_logger, (time_sleep_ok _ _ _ Hpoll). cbn.
  by apply (Hall batch eq_refl eq_refl).
Qed.

Lemma repeated_fetch_is_a_no_op_witness :
  let s1 := snd (MastodonFilter.iteration no_warning_config hostile_env
                   (FetchOk two_mentions) initial_state) in
  MastodonFilter.iteration no_warning_config hostile_env (FetchOk two_mentions) s1
    = (true,
       set_slept (slept s1 + poll_interval no_warning_config)
         (set_log (log s1 ++ [LogChecking; LogNoNew;
                              LogSleeping (poll_interval no_warning_config)])
                  s1)).
Proof.
  apply (repeated_fetch_is_a_no_op no_warning_config hostile_env two_mentions
           initial_state); reflexivity.
Defined.

(** X23. An exception of the sleep that ends a cycle is outside the [try]
    of the loop and ends [run]: when [time.sleep] raises on
    [poll_interval] (a negative one, say), the loop makes one cycle, logs
    that it goes to sleep, and stops there, whatever the later fetches
    would have returned. *)
Theorem refused_sleep_ends_the_loop cfg env fetch fetches s e :
  sleep_outcome env (poll_interval cfg) = Some e →
  fetch ≠ FetchInterrupted →
  let s' := MastodonFilter.loop cfg env (fetch :: fetches) s in
  let s1 := snd (MastodonFilter.cycle_body cfg env fetch s) in
  s' = MastodonFilter.loop cfg env [fetch] s
  ∧ last (log s') = Some (LogSleeping (poll_interval cfg))
  ∧ slept s' = slept s1
  ∧ processed_ids s' = processed_ids s1.
Proof.
  intros Hsl Hf. cbn zeta. cbn [MastodonFilter.loop].
  unfold MastodonFilter.iteration.
  destruct fetch as [batch| |]; [| |done].
  - unfold try_except.
    destruct (MastodonFilter.cycle_body cfg env (FetchOk batch) s) as [[[]|e0] s1];
      cbn [snd]; rewrite ?bind_logger, (time_sleep_raise _ _ _ _ Hsl); cbn;
      rewrite ?last_snoc; done.
  - unfold try_except. rewrite cycle_raises. cbn [snd].
    rewrite !bind_logger, (time_sleep_raise _ _ _ _ Hsl). cbn.
    rewrite ?last_snoc. done.
Qed.

Lemma refused_sleep_ends_the_loop_witness :
  let cfg := set_delays 5 (-1) no_warning_config in
  let s' := MastodonFilter.loop cfg hostile_env
              [FetchOk two_mentions; FetchOk two_mentions] initial_state in
  let s1 := snd (MastodonFilter.cycle_body cfg hostile_env (FetchOk two_mentions)
                   initial_state) in
  s' = MastodonFilter.loop cfg hostile_env [FetchOk two_mentions] initial_state
  ∧ last (log s') = Some (LogSleeping (poll_interval cfg))
  ∧ slept s' = slept s1
  ∧ processed_ids s' = processed_ids s1.
Proof.
  apply (refused_sleep_ends_the_loop (set_delays 5 (-1) no_warning_config)
           hostile_env (FetchOk two_mentions) [FetchOk two_mentions]
           initial_state ValueError).
  - reflexivity.
  - discriminate.
Defined.

(** ** The file of processed ids *)

Lemma string_app_cons x (a b : string) : String x a +:+ b = String x (a +:+ b).
Proof. reflexivity. Qed.

Lemma string_app_nil_l (b : string) : EmptyString +:+ b = b.
Proof. reflexivity. Qed.

Lemma string_app_assoc (a b c : string) : (a +:+ b) +:+ c = a +:+ b +:+ c.
Proof.
  induction a as [|x a IH]; [done|]. by rewrite !string_app_cons, IH.
Qed.

Lemma string_app_nil_r (a : string) : a +:+ EmptyString = a.
Proof. induction a as [|x a IH]; [done|]. by rewrite string_app_cons, IH. Qed.

Lemma isspace_LF : isspace LF = true.
Proof. reflexivity. Qed.

Lemma lstrip_length s : (String.length (lstrip s) ≤ String.length s)%nat.
Proof. induction s as [|c s IH]; cbn; [lia|]. destruct (isspace c); cbn; lia. Qed.

Lemma rstrip_length s : (String.length (rstrip s) ≤ String.length s)%nat.
Proof.
  induction s as [|c s IH]; cbn; [lia|].
  destruct (rstrip s); [destruct (isspace c)|]; cbn in *; lia.
Qed.

Lemma lstrip_fixed s :
  lstrip s = s → match s with
                 | EmptyString => True
                 | String c _ => isspace c = false
                 end.
Proof.
  destruct s as [|c s]; cbn; [done|]. destruct (isspace c); [|done].
  intros H. pose proof (lstrip_length s) as Hl. rewrite H in Hl. cbn in Hl. lia.
Qed.

Lemma strip_fixed s : strip s = s → lstrip s = s ∧ rstrip s = s.
Proof.
  unfold strip. intros H.
  assert (Hl : lstrip s = s).
  { pose proof (rstrip_length (lstrip s)) as H1. rewrite H in H1.
    destruct s as [|c s]; cbn in *; [done|].
    destruct (isspace c); [|done].
    pose proof (lstrip_length s). lia. }
  split; [done|]. by rewrite Hl in H.
Qed.

Lemma rstrip_head c s : isspace c = false → rstrip (String c s) = String c (rstrip s).
Proof. intros H. cbn. rewrite H. by destruct (rstrip s). Qed.

Lemma rstrip_idemp s : rstrip (rstrip s) = rstrip s.
Proof.
  induction s as [|c s IH]; cbn; [done|].
  destruct (rstrip s) as [|d r] eqn:E.
  - destruct (isspace c) eqn:Ec; cbn; [done|]. by rewrite Ec.
  - cbn -[rstrip]. change (rstrip (String c (String d r))) with
      (match rstrip (String d r) with
       | EmptyString => if isspace c then EmptyString else String c EmptyString
       | r' => String c r'
       end). by rewrite IH.
Qed.

Lemma lstrip_head s :
  match lstrip s with
  | EmptyString => True
  | String c _ => isspace c = false
  end.
Proof. induction s as [|c s IH]; cbn; [done|]. by destruct (isspace c) eqn:E; cbn; rewrite ?E. Qed.

Lemma strip_idemp s : strip (strip s) = strip s.
Proof.
  unfold strip. pose proof (lstrip_head s) as H.
  destruct (lstrip s) as [|c r]; [done|].
  rewrite (rstrip_head _ _ H). cbn [lstrip]. rewrite H.
  rewrite <- (rstrip_head _ _ H). apply rstrip_idemp.
Qed.

Lemma rstrip_app_LF s : rstrip (s +:+ String LF EmptyString) = rstrip s.
Proof.
  induction s as [|c s IH]; [done|].
  rewrite string_app_cons. cbn [rstrip]. by rewrite IH.
Qed.

Lemma strip_line id : strip id = id → strip (id +:+ String LF EmptyString) = id.
Proof.
  intros H. destruct (strip_fixed _ H) as [Hl Hr].
  pose proof (lstrip_fixed _ Hl) as Hh. unfold strip.
  destruct id as [|c r]; [done|].
  rewrite string_app_cons. cbn [lstrip]. rewrite Hh.
  by rewrite <- string_app_cons, rstrip_app_LF.
Qed.

(** Characters of an id that is safe on a line. *)
Lemma line_safe_cons c r :
  forallb (λ c, negb (bool_decide (c = LF)) && negb (bool_decide (c = CR)))
          (String.list_ascii_of_string (String c r)) = true →
  c ≠ LF ∧ c ≠ CR
  ∧ forallb (λ c, negb (bool_decide (c = LF)) && negb (bool_decide (c = CR)))
            (String.list_ascii_of_string r) = true.
Proof.
  cbn [String.list_ascii_of_string forallb].
  rewrite !andb_true_iff, !negb_true_iff, !bool_decide_eq_false. tauto.
Qed.

Section OneLine.
Variable id : string.
Hypothesis Hid :
  forallb (λ c, negb (bool_decide (c = LF)) && negb (bool_decide (c = CR)))
          (String.list_ascii_of_string id) = true.

Lemma write_text_line p :
  write_text p (id +:+ String LF EmptyString) = id +:+ linesep p.
Proof.
  induction id as [|c r IH].
  - rewrite string_app_nil_l. cbn [write_text].
    rewrite (bool_decide_eq_true_2 _ eq_refl). apply string_app_nil_r.
  - destruct (line_safe_cons _ _ Hid) as (H1 & _ & H3).
    rewrite !string_app_cons. cbn [write_text].
    by rewrite (bool_decide_eq_false_2 _ H1), (IH H3).
Qed.

Lemma read_text_line p :
  read_text false (id +:+ linesep p) = id +:+ String LF EmptyString.
Proof.
  induction id as [|c r IH].
  - by destruct p.
  - destruct (line_safe_cons _ _ Hid) as (H1 & H2 & H3).
    rewrite !string_app_cons. cbn [read_text].
    by rewrite (bool_decide_eq_false_2 _ H2), (bool_decide_eq_false_2 _ H1), (IH H3).
Qed.

Lemma lines_line :
  lines (id +:+ String LF EmptyString) = [id +:+ String LF EmptyString].
Proof.
  induction id as [|c r IH].
  - done.
  - destruct (line_safe_cons _ _ Hid) as (H1 & _ & H3).
    rewrite !string_app_cons. cbn [lines].
    by rewrite (bool_decide_eq_false_2 _ H1), (IH H3).
Qed.

End OneLine.

Lemma terminated_cons c r :
  terminated (String c r) = true →
  (r = EmptyString ∧ c = LF) ∨ (r ≠ EmptyString ∧ terminated r = true).
Proof.
  destruct r as [|d r]; [left|right; split; [discriminate|done]].
  split; [done|]. by apply bool_decide_eq_true in H.
Qed.

Lemma terminated_app_LF a : terminated (a +:+ String LF EmptyString) = true.
Proof.
  induction a as [|c r IH]; [done|].
  rewrite string_app_cons. cbn [terminated].
  by destruct (r +:+ String LF EmptyString) eqn:E; [destruct r|].
Qed.

Lemma read_text_nonempty raw : read_text false raw = EmptyString → raw = EmptyString.
Proof.
  destruct raw as [|c r]; [done|]. cbn [read_text].
  by repeat case_bool_decide.
Qed.

Lemma lines_nonempty text : lines text = [] → text = EmptyString.
Proof.
  destruct text as [|c r]; [done|]. cbn [lines].
  case_bool_decide; [done|]. by destruct (lines r).
Qed.

Lemma read_text_app a b : ∀ f,
  terminated a = true → a ≠ EmptyString →
  read_text f (a +:+ b) = read_text f a +:+ read_text false b.
Proof.
  induction a as [|c r IH]; intros f Ht Hne; [done|].
  rewrite string_app_cons.
  destruct (terminated_cons _ _ Ht) as [[-> ->]|[Hr Htr]].
  - rewrite string_app_nil_l. cbn [read_text].
    rewrite (bool_decide_eq_false_2 (LF = CR)) by discriminate.
    rewrite (bool_decide_eq_true_2 _ eq_refl). by destruct f.
  - cbn [read_text].
    repeat case_bool_decide; try destruct f;
      rewrite ?string_app_cons, (IH _ Htr Hr); done.
Qed.

Lemma terminated_String c t :
  terminated t = true → (t = EmptyString → c = LF) →
  terminated (String c t) = true.
Proof.
  intros Ht Hc. destruct t; [|done].
  cbn [terminated]. apply bool_decide_eq_true. by apply Hc.
Qed.

Lemma read_text_terminated a : ∀ f,
  terminated a = true → terminated (read_text f a) = true.
Proof.
  induction a as [|c r IH]; intros f Ht; [done|].
  destruct (terminated_cons _ _ Ht) as [[-> ->]|[Hr Htr]].
  - by destruct f.
  - cbn [read_text].
    repeat case_bool_decide; try destruct f; try (by apply IH);
      (apply terminated_String; [by apply IH|]); try done;
      intros Hn; by destruct Hr; apply read_text_nonempty.
Qed.

Lemma lines_app a b :
  terminated a = true → lines (a +:+ b) = lines a ++ lines b.
Proof.
  induction a as [|c r IH]; intros Ht; [done|].
  rewrite string_app_cons.
  destruct (terminated_cons _ _ Ht) as [[-> ->]|[Hr Htr]].
  - done.
  - cbn [lines]. rewrite (IH Htr). case_bool_decide; [done|].
    pose proof (lines_nonempty r) as Hn.
    destruct (lines r); [by destruct Hr; apply Hn|done].
Qed.

Lemma load_append_id p file id :
  whole_lines file = true → line_safe id = true →
  whole_lines (ProcessedIds.append_id p file id) = true
  ∧ ProcessedIds._load_processed_ids (ProcessedIds.append_id p file id)
    = ProcessedIds._load_processed_ids file ∪ {[id]}.
Proof.
  intros Hf Hid. apply andb_true_iff in Hid as [Hs Hc].
  apply bool_decide_eq_true in Hs.
  unfold ProcessedIds.append_id. rewrite (write_text_line id Hc).
  set (raw := default EmptyString file).
  assert (Hraw : terminated raw = true).
  { unfold raw. destruct file; [exact Hf|reflexivity]. }
  assert (Hload : ProcessedIds._load_processed_ids file
                  = list_to_set (strip <$> lines (read_text false raw))).
  { unfold raw. destruct file; reflexivity. }
  clearbody raw. split.
  - cbn [whole_lines]. destruct p; cbn [linesep].
    + rewrite <- string_app_assoc. apply terminated_app_LF.
    + change (String CR (String LF EmptyString))
        with (String CR EmptyString +:+ String LF EmptyString).
      rewrite <- !string_app_assoc. apply terminated_app_LF.
  - rewrite Hload. cbn [ProcessedIds._load_processed_ids].
    assert (Hline : lines (read_text false (raw +:+ id +:+ linesep p))
                    = lines (read_text false raw)
                        ++ [id +:+ String LF EmptyString]).
    { destruct (decide (raw = EmptyString)) as [->|Hne].
      - rewrite string_app_nil_l, (read_text_line id Hc). by rewrite (lines_line id Hc).
      - rewrite (read_text_app raw _ false Hraw Hne).
        rewrite (read_text_line id Hc).
        rewrite lines_app by (by apply read_text_terminated).
        by rewrite (lines_line id Hc). }
    rewrite Hline, fmap_app, list_to_set_app_L. cbn [fmap list_fmap list_to_set].
    by rewrite (strip_line id Hs), (right_id_L ∅ (∪)).
Qed.

Lemma load_file_after p ids : ∀ file,
  whole_lines file = true →
  Forall (λ id, line_safe id = true) ids →
  ProcessedIds._load_processed_ids (ProcessedIds.file_after p file ids)
    = ProcessedIds._load_processed_ids file ∪ list_to_set ids.
Proof.
  unfold ProcessedIds.file_after.
  induction ids as [|id ids IH]; intros file Hf Hids.
  - cbn. by rewrite (right_id_L ∅ (∪)).
  - apply Forall_cons in Hids as [Hid Hids].
    destruct (load_append_id p file id Hf Hid) as [Hf' Hl].
    cbn [foldl list_to_set]. by rewrite (IH _ Hf' Hids), Hl, (assoc_L (∪)).
Qed.

(** X20. The file of processed ids gives back what was appended to it.
    When the file is absent, empty or ends with a line feed, and each id
    marked processed has no line break in it and no white space at its
    ends, loading the file after the appends gives the ids loaded before
    together with the ids appended, on either platform. *)
Theorem appended_ids_are_loaded_back p ids file :
  whole_lines file = true →
  Forall (λ id, line_safe id = true) ids →
  ProcessedIds._load_processed_ids (ProcessedIds.file_after p file ids)
    = ProcessedIds._load_processed_ids file ∪ list_to_set ids.
Proof. apply load_file_after. Qed.

Lemma appended_ids_are_loaded_back_witness :
  ProcessedIds._load_processed_ids
    (ProcessedIds.file_after Windows (Some ("1" +:+ String LF EmptyString))
       ["2"; "30"])
    = ProcessedIds._load_processed_ids (Some ("1" +:+ String LF EmptyString))
        ∪ list_to_set ["2"; "30"].
Proof.
  apply (appended_ids_are_loaded_back Windows ["2"; "30"]
           (Some ("1" +:+ String LF EmptyString))).
  - reflexivity.
  - repeat constructor.
Defined.

(** X21. The loader only gives stripped ids: an id that [strip] changes
    (white space at one of its ends) is in no loaded set, whatever the
    file holds, so it is not recognised after a restart. *)
Theorem loaded_ids_are_stripped file id :
  id ∈ ProcessedIds._load_processed_ids file → strip id = id.
Proof.
  destruct file as [raw|]; cbn [ProcessedIds._load_processed_ids].
  - rewrite elem_of_list_to_set, list_elem_of_fmap.
    intros (l & -> & _). apply strip_idemp.
  - by intros ?%elem_of_empty.
Qed.

Lemma loaded_ids_are_stripped_witness :
  strip "7" = "7".
Proof.
  apply (loaded_ids_are_stripped (Some (" 7 " +:+ String LF EmptyString)) "7").
  apply elem_of_list_to_set, list_elem_of_fmap.
  exists (" 7 " +:+ String LF EmptyString). split; [reflexivity|].
  vm_compute. constructor.
Defined.

(** X22. The dedup store and its file stay in step over a run: a filter
    that starts from a file of whole lines and only fetches mentions
    whose ids are safe on a line ends its loop with a file that loads to
    exactly the set of ids it holds in memory, so a restart neither
    forgets a processed mention nor invents one. *)
Theorem restart_loads_the_stored_ids p cfg env fetches file s0 :
  whole_lines file = true →
  (∀ batch n, FetchOk batch ∈ fetches → n ∈ batch →
              line_safe (notif_id n) = true) →
  let s' := MastodonFilter.loop cfg env fetches (ProcessedIds.__init__ file s0) in
  ProcessedIds._load_processed_ids
    (ProcessedIds.file_after p file (processed_file s'))
    = processed_ids s'.
Proof.
  intros Hf Hsafe. cbn zeta.
  destruct (loop_trace cfg env fetches (ProcessedIds.__init__ file s0))
    as (marked & ops & -> & -> & Hm & _).
  cbn [ProcessedIds.__init__ set_processed processed_file processed_ids app].
  rewrite load_file_after; [by rewrite (comm_L (∪))|done|].
  apply Forall_forall. intros id Hid.
  destruct (Hm id Hid) as (batch & n & Hb & Hn & <-). by apply (Hsafe batch).
Qed.

Lemma restart_loads_the_stored_ids_witness :
  let s' := MastodonFilter.loop no_warning_config hostile_env
              [FetchOk two_mentions] (ProcessedIds.__init__ None initial_state) in
  ProcessedIds._load_processed_ids
    (ProcessedIds.file_after Posix None (processed_file s'))
    = processed_ids s'.
Proof.
  apply (restart_loads_the_stored_ids Posix no_warning_config hostile_env
           [FetchOk two_mentions] None initial_state).
  - reflexivity.
  - intros batch n Hb Hn. apply list_elem_of_singleton in Hb. injection Hb as ->.
    unfold two_mentions in Hn.
    repeat (apply elem_of_cons in Hn as [->|Hn]); try reflexivity.
    by apply elem_of_nil in Hn.
Defined.
